(** * AI SDR agent: entry point, web endpoints and the orchestration core

    The entry point [main] (main.py), the HTTP handlers and the dashboard
    components are embedded from their sources.  The orchestration core is
    embedded from the two Python modules the repository ships compiled,
    tools/interaction.py (memory store and interaction gate) and
    tools/get_leads.py (lead acquisition); both are stored, as CPython 3.12
    code objects, in src/prompts/followup_email.txt. *)

From Stdlib Require Import ZArith Ascii String.
From stdpp Require Import base option list gmap strings pretty.

Set Warnings "-register-all".
Local Open Scope Z_scope.

(** ** Results of fallible operations *)

Inductive result (E A : Type) : Type :=
  | Ok (a : A)
  | Err (e : E).
Arguments Ok {E A} a.
Arguments Err {E A} e.

Global Instance result_ret {E} : MRet (result E) := λ A a, Ok a.
Global Instance result_bind {E} : MBind (result E) := λ A B k r,
  match r with
  | Ok a => k a
  | Err e => Err e
  end.

Global Instance result_fmap {E} : FMap (result E) := λ A B f r,
  match r with
  | Ok a => Ok (f a)
  | Err e => Err e
  end.


(** ** Text helpers shared by the Python and TypeScript sides

    A text is the string of the bytes of its UTF-8 encoding.  Stripping
    and trimming remove the white space of the language concerned, of one
    byte or several.  Case folding is ASCII only: [lower] agrees with
    [str.lower] on ASCII text, and, since no character beyond ASCII folds
    to a letter of y, yes, true or 1, on the question whether the folded
    text is one of these words. *)

Module Text.



(** ASCII case folding, as [str.lower] does on ASCII input. *)
Definition lower_ascii (c : ascii) : ascii :=
  let n := nat_of_ascii c in
  if (Nat.leb 65 n && Nat.leb n 90)%bool then ascii_of_nat (n + 32)%nat else c.

Fixpoint lower (s : string) : string :=
  match s with
  | EmptyString => EmptyString
  | String c s' => String (lower_ascii c) (lower s')
  end.

(** The text made of the given bytes. *)
Definition bytes (l : list nat) : string :=
  fold_right (λ n s, String (ascii_of_nat n) s) EmptyString l.

(** The white space [str.strip] removes: the characters 9 to 13 and 28 to
    32, U+0085, U+00A0, U+1680, U+2000 to U+200A, U+2028, U+2029, U+202F,
    U+205F and U+3000. *)
Definition py_spaces : list string :=
  ((λ n, bytes [n]) <$> [9; 10; 11; 12; 13; 28; 29; 30; 31; 32]%nat)
  ++ [bytes [194; 133]; bytes [194; 160]; bytes [225; 154; 128]]%nat
  ++ ((λ n, bytes [226; 128; n]%nat) <$> seq 128 11)
  ++ [bytes [226; 128; 168]; bytes [226; 128; 169]; bytes [226; 128; 175];
      bytes [226; 129; 159]; bytes [227; 128; 128]]%nat.

(** The white space and line terminators [String.prototype.trim] removes:
    the characters 9 to 13 and 32, U+00A0, U+1680, U+2000 to U+200A,
    U+2028, U+2029, U+202F, U+205F, U+3000 and U+FEFF. *)
Definition js_spaces : list string :=
  ((λ n, bytes [n]) <$> [9; 10; 11; 12; 13; 32]%nat)
  ++ [bytes [194; 160]; bytes [225; 154; 128]]%nat
  ++ ((λ n, bytes [226; 128; n]%nat) <$> seq 128 11)
  ++ [bytes [226; 128; 168]; bytes [226; 128; 169]; bytes [226; 128; 175];
      bytes [226; 129; 159]; bytes [227; 128; 128]; bytes [239; 187; 191]]%nat.

(** [s] without its prefix [p], when it starts with [p]. *)
Fixpoint drop_prefix (p s : string) : option string :=
  match p, s with
  | EmptyString, _ => Some s
  | String a p', String b s' => if Ascii.eqb a b then drop_prefix p' s' else None
  | String _ _, EmptyString => None
  end.

(** [s] without the white space character it starts with, if any. *)
Fixpoint drop_space (spaces : list string) (s : string) : option string :=
  match spaces with
  | [] => None
  | p :: rest =>
      match drop_prefix p s with
      | Some s' => Some s'
      | None => drop_space rest s
      end
  end.

Fixpoint lstrip_upto (spaces : list string) (n : nat) (s : string) : string :=
  match n with
  | O => s
  | S n' =>
      match drop_space spaces s with
      | Some s' => lstrip_upto spaces n' s'
      | None => s
      end
  end.

Definition lstrip (spaces : list string) (s : string) : string :=
  lstrip_upto spaces (String.length s) s.

(** White space at the end is white space, reversed, at the start of the
    reversed text. *)
Definition rstrip (spaces : list string) (s : string) : string :=
  String.rev (lstrip (String.rev <$> spaces) (String.rev s)).

(** [s.strip()] of Python. *)
Definition py_strip (s : string) : string := rstrip py_spaces (lstrip py_spaces s).

(** [s.trim()] of JavaScript. *)
Definition js_trim (s : string) : string := rstrip js_spaces (lstrip js_spaces s).

Definition is_empty (s : string) : bool :=
  match s with EmptyString => true | _ => false end.

(** [needle in hay] for Python strings. *)
Fixpoint contains (needle hay : string) : bool :=
  if String.prefix needle hay then true
  else match hay with
       | EmptyString => false
       | String _ hay' => contains needle hay'
       end.

(** [s.replace(' ', '+')]. *)
Fixpoint plus_for_space (s : string) : string :=
  match s with
  | EmptyString => EmptyString
  | String c s' =>
      String (if Ascii.eqb c " " then "+"%char else c) (plus_for_space s')
  end.

Fixpoint join (sep : string) (l : list string) : string :=
  match l with
  | [] => ""
  | [s] => s
  | s :: rest => s +:+ sep +:+ join sep rest
  end.

Definition mem (s : string) (l : list string) : bool :=
  bool_decide (s ∈ l).

End Text.

(** ** JSON values

    Values held in configuration files, in the memory file and in request
    bodies.  A number is an integer or a decimal [m * 10 ^ e]. *)

Inductive Json : Type :=
  | JNull
  | JBool (b : bool)
  | JInt (z : Z)
  | JDec (m e : Z)
  | JStr (s : string)
  | JArr (items : list Json)
  | JObj (fields : list (string * Json)).

(** ** The entry point: [main] of main.py *)

Module EntryPoint.

Inductive MainResult : Type :=
  | KeyError (key : string)
  | Aborted (printed : list string)
  | PlannerRan (mode : string).

(** [config[key]]: a missing key raises. *)
Definition index (config : gmap string Json) (key : string) : result string Json :=
  match config !! key with
  | Some v => Ok v
  | None => Err key
  end.

(** [config[key] == s] for a string literal [s]. *)
Definition is_str (v : Json) (s : string) : bool :=
  match v with
  | JStr t => bool_decide (t = s)
  | _ => false
  end.

Definition required_keys (config : gmap string Json) : result string (list string) :=
  lead_source ← index config "lead_source";
  email_provider ← index config "email_provider";
  crm ← index config "crm";
  Ok (["OPENAI_API_KEY"]
         ++ (if is_str lead_source "apollo" then ["APOLLO_API_KEY"] else [])
         ++ (if is_str email_provider "gmail" then ["GMAIL_CREDENTIALS"] else [])
         ++ (if is_str crm "airtable" then ["AIRTABLE_API_KEY"] else [])).

(** [not os.getenv(key)]: unset, or set to the empty string. *)
Definition unset (environ : gmap string string) (key : string) : bool :=
  match environ !! key with
  | Some v => Text.is_empty v
  | None => true
  end.

Definition missing_keys (environ : gmap string string) (keys : list string) : list string :=
  List.filter (unset environ) keys.

Definition main (config : gmap string Json) (mode : string)
    (environ : gmap string string) : MainResult :=
  match required_keys config with
  | Err key => KeyError key
  | Ok keys =>
      match missing_keys environ keys with
      | [] => PlannerRan mode
      | missing =>
          Aborted ["Missing required API keys: " +:+ Text.join ", " missing;
                   "Please add them to your .env file"]
      end
  end.

(** The configuration [create_default_config] writes when the file is
    missing. *)
Definition default_config : gmap string Json :=
  {[ "goal" := JStr "Book meetings";
     "industry" := JStr "AI SaaS";
     "location" := JStr "United States";
     "role" := JStr "Founder";
     "product" := JStr "an AI that improves cold outreach response rate by 40%";
     "lead_source" := JStr "csv";
     "email_provider" := JStr "gmail";
     "crm" := JStr "airtable";
     "leads_per_day" := JInt 5;
     "follow_up_days" := JInt 2 ]}.

Definition planner_ran (r : MainResult) : bool :=
  match r with PlannerRan _ => true | _ => false end.

End EntryPoint.

(** ** JavaScript views of JSON values *)

Module Js.

(** A destructured field is [None] when it is [undefined]. *)
Definition truthy (v : option Json) : bool :=
  match v with
  | None => false
  | Some JNull => false
  | Some (JBool b) => b
  | Some (JInt z) => negb (z =? 0)
  | Some (JDec m _) => negb (m =? 0)
  | Some (JStr s) => negb (Text.is_empty s)
  | Some (JArr _) => true
  | Some (JObj _) => true
  end.

(** Property lookup on a parsed object; of two equal keys the later one
    is the one [JSON.parse] keeps. *)
Fixpoint obj_get (key : string) (fields : list (string * Json)) : option Json :=
  match fields with
  | [] => None
  | (k, v) :: rest =>
      match obj_get key rest with
      | Some v' => Some v'
      | None => if bool_decide (k = key) then Some v else None
      end
  end.

(** [const { key } = body]: destructuring [null] throws, an object yields
    its property, any other value has no such property. *)
Definition destructure (body : Json) : option (string → option Json) :=
  match body with
  | JNull => None
  | JObj fields => Some (λ key, obj_get key fields)
  | _ => Some (λ _, None)
  end.

End Js.

(** ** The hosted database as the handlers use it *)

Module Supabase.

Record LeadRow : Type := {
  lead_user_id : string;
  lead_agent_run_id : option Json;
  lead_full_name : option Json;
  lead_email : option Json;
  lead_company : option Json;
  lead_title : option Json;
  lead_linkedin_url : option Json;
  lead_website_url : option Json;
  lead_notes : option Json
}.

Record AgentInputs : Type := {
  in_industry : option Json;
  in_role : option Json;
  in_region : option Json;
  in_lead_count : option Json;
  in_email_tone : option Json;
  in_objective : option Json
}.

Record AgentRow : Type := {
  agent_id : nat;
  agent_user_id : string;
  agent_status : string;
  agent_inputs : AgentInputs
}.

Record TaskRow : Type := {
  task_agent_id : nat;
  task_type : string;
  task_status : string;
  task_message : string
}.

Record AgentRunRow : Type := {
  run_id : string;
  run_user_id : string
}.

Record Db : Type := {
  agent_runs : list AgentRunRow;
  leads : list LeadRow;
  agents : list AgentRow;
  tasks : list TaskRow
}.

(** What the database answers with an [error] instead of [data]. *)
Record Faults : Type := {
  select_leads_fails : bool;
  insert_lead_fails : LeadRow → bool;
  insert_agent_fails : AgentRow → bool;
  insert_task_fails : TaskRow → bool
}.

(** The [status] union of [Database.public.Tables.agents.Row]. *)
Definition declared_agent_statuses : list string :=
  ["pending"; "running"; "completed"; "failed"].

(** [.eq(column, v)] against a text column. *)
Definition eq_text (v : option Json) (s : string) : bool :=
  match v with
  | Some (JStr t) => bool_decide (t = s)
  | _ => false
  end.

(** [.single()]: data only when exactly one row matches. *)
Definition single {A} (rows : list A) : option A :=
  match rows with
  | [r] => Some r
  | _ => None
  end.

End Supabase.

Inductive Payload : Type :=
  | ErrorBody (error : string)
  | LeadCreated (lead : Supabase.LeadRow)
  | LeadList (rows : list Supabase.LeadRow)
  | AgentStarted (agent : nat) (status : string).

Record Response : Type := {
  status_code : nat;
  payload : Payload
}.

Record Request : Type := {
  session : option string;       (* session.user.id *)
  search : string → option string; (* url.searchParams.get *)
  body : option Json             (* request.json(); None when it throws *)
}.

Definition json_error (msg : string) (code : nat) : Response :=
  {| status_code := code; payload := ErrorBody msg |}.

Definition json_ok (p : Payload) : Response :=
  {| status_code := 200; payload := p |}.

(** ** app/api/leads/route.ts *)

Module LeadsApi.
Import Supabase.

Definition GET (faults : Faults) (req : Request) (db : Db) : Response * Db :=
  match session req with
  | None => (json_error "Unauthorized" 401, db)
  | Some userId =>
      let agentRunId := search req "agent_run_id" in
      let of_user := List.filter (λ r, bool_decide (lead_user_id r = userId)) (leads db) in
      let rows :=
        match agentRunId with
        | Some id =>
            if Text.is_empty id then of_user
            else List.filter (λ r, eq_text (lead_agent_run_id r) id) of_user
        | None => of_user
        end in
      if select_leads_fails faults
      then (json_error "Failed to fetch leads" 500, db)
      else (json_ok (LeadList rows), db)
  end.

Definition POST (faults : Faults) (req : Request) (db : Db) : Response * Db :=
  match session req with
  | None => (json_error "Unauthorized" 401, db)
  | Some userId =>
      match body req ≫= Js.destructure with
      | None => (json_error "Internal server error" 500, db)
      | Some field =>
          let agent_run_id := field "agent_run_id" in
          let full_name := field "full_name" in
          let email := field "email" in
          let company := field "company" in
          let title := field "title" in
          let linkedin_url := field "linkedin_url" in
          let website_url := field "website_url" in
          let notes := field "notes" in
          if negb (Js.truthy agent_run_id) || negb (Js.truthy full_name)
             || negb (Js.truthy email) || negb (Js.truthy company)
             || negb (Js.truthy title)
          then (json_error "Missing required fields" 400, db)
          else
            let agentRun :=
              single (List.filter
                        (λ r, eq_text agent_run_id (run_id r)
                              && bool_decide (run_user_id r = userId))
                        (agent_runs db)) in
            match agentRun with
            | None => (json_error "Agent run not found or access denied" 404, db)
            | Some _ =>
                let row := {| lead_user_id := userId;
                              lead_agent_run_id := agent_run_id;
                              lead_full_name := full_name;
                              lead_email := email;
                              lead_company := company;
                              lead_title := title;
                              lead_linkedin_url := linkedin_url;
                              lead_website_url := website_url;
                              lead_notes := notes |} in
                if insert_lead_fails faults row
                then (json_error "Failed to create lead" 500, db)
                else (json_ok (LeadCreated row),
                      {| agent_runs := agent_runs db;
                         leads := leads db ++ [row];
                         agents := agents db;
                         tasks := tasks db |})
            end
      end
  end.

(** The fields [POST] refuses to go without. *)
Definition required_fields : list string :=
  ["agent_run_id"; "full_name"; "email"; "company"; "title"].

(** The required columns of a stored lead hold a value. *)
Definition lead_ok (r : LeadRow) : bool :=
  Js.truthy (lead_agent_run_id r) && Js.truthy (lead_full_name r)
  && Js.truthy (lead_email r) && Js.truthy (lead_company r)
  && Js.truthy (lead_title r).

(** Every way [POST] of the leads route can end. *)
Inductive leads_post_outcome (req : Request) (db : Db) : Response * Db → Prop :=
  | post_unauthorized :
      session req = None →
      leads_post_outcome req db (json_error "Unauthorized" 401, db)
  | post_thrown :
      leads_post_outcome req db (json_error "Internal server error" 500, db)
  | post_missing :
      is_Some (session req) →
      leads_post_outcome req db (json_error "Missing required fields" 400, db)
  | post_no_run :
      leads_post_outcome req db (json_error "Agent run not found or access denied" 404, db)
  | post_insert_failed :
      leads_post_outcome req db (json_error "Failed to create lead" 500, db)
  | post_created row :
      lead_ok row = true →
      leads_post_outcome req db
        (json_ok (LeadCreated row),
         {| agent_runs := agent_runs db; leads := leads db ++ [row];
            agents := agents db; tasks := tasks db |}).

Definition returned_leads (r : Response) : list LeadRow :=
  match payload r with
  | LeadList rows => rows
  | LeadCreated row => [row]
  | _ => []
  end.

End LeadsApi.

(** ** app/api/agent/run/route.ts and the agent status bar *)

Module AgentRunApi.
Import Supabase.

Definition POST (faults : Faults) (req : Request) (db : Db) : Response * Db :=
  match session req with
  | None => (json_error "Unauthorized" 401, db)
  | Some userId =>
      match body req ≫= Js.destructure with
      | None => (json_error "Internal server error" 500, db)
      | Some field =>
          let agentRun :=
            {| agent_id := length (agents db);
               agent_user_id := userId;
               agent_status := "active";
               agent_inputs :=
                 {| in_industry := field "target_industry";
                    in_role := field "target_role";
                    in_region := field "target_region";
                    in_lead_count := field "lead_count";
                    in_email_tone := field "email_tone";
                    in_objective := field "email_objective" |} |} in
          if insert_agent_fails faults agentRun
          then (json_error "Failed to create agent run" 500, db)
          else
            let task :=
              {| task_agent_id := agent_id agentRun;
                 task_type := "initialize";
                 task_status := "done";
                 task_message := "AI SDR Agent started. I will help you generate leads and write personalized emails." |} in
            (json_ok (AgentStarted (agent_id agentRun) "active"),
             {| agent_runs := agent_runs db;
                leads := leads db;
                agents := agents db ++ [agentRun];
                tasks := if insert_task_fails faults task then tasks db
                         else tasks db ++ [task] |})
      end
  end.

(** [getStatusText] of the agent status bar. *)
Definition getStatusText (status : string) : string :=
  if bool_decide (status = "completed") then "Agent task completed"
  else if bool_decide (status = "running") then "Agent is running..."
  else if bool_decide (status = "failed") then "Agent encountered an error"
  else "Agent is waiting to start".

(** [getStatusColor] of the agent status bar. *)
Definition getStatusColor (status : string) : string :=
  if bool_decide (status = "completed") then "bg-green-50 text-green-800 border-green-200"
  else if bool_decide (status = "running") then "bg-yellow-50 text-yellow-800 border-yellow-200"
  else if bool_decide (status = "failed") then "bg-red-50 text-red-800 border-red-200"
  else "bg-gray-50 text-gray-800 border-gray-200".

Inductive Icon : Type := CheckCircle | Loader2 | AlertCircle | Clock.

(** [getStatusIcon] of the agent status bar. *)
Definition getStatusIcon (status : string) : Icon :=
  if bool_decide (status = "completed") then CheckCircle
  else if bool_decide (status = "running") then Loader2
  else if bool_decide (status = "failed") then AlertCircle
  else Clock.

End AgentRunApi.

(** ** Python values

    The values the Python modules handle: JSON data ([None], booleans,
    numbers, strings, lists and string-keyed dictionaries of those) and any
    other object, of which only [str(obj)] matters here. *)

Module Py.

Inductive Value : Type :=
  | Data (j : Json)
  | Object (repr : string).

Definition none : Value := Data JNull.

Definition text (s : string) : Value := Data (JStr s).

(** [v is None]. *)
Definition is_none (v : Value) : bool :=
  match v with
  | Data JNull => true
  | _ => false
  end.

(** [bool(v)], the test of [if v:] and [not v]. *)
Definition truthy (v : Value) : bool :=
  match v with
  | Data JNull => false
  | Data (JBool b) => b
  | Data (JInt z) => negb (z =? 0)
  | Data (JDec m _) => negb (m =? 0)
  | Data (JStr s) => negb (Text.is_empty s)
  | Data (JArr items) => match items with [] => false | _ => true end
  | Data (JObj fields) => match fields with [] => false | _ => true end
  | Object _ => true
  end.

Inductive Exn : Type := EOFError | AttributeError | ValueError | TypeError.

(** The built-in conversions that are taken as given: [float(v)] and the
    text [str(v)] of a float, a list or a dictionary. *)
Record Builtins : Type := {
  float_of : Value → result Exn (Z * Z);
  repr_of : Json → string
}.

(** [str(v)]. *)
Definition str (bi : Builtins) (v : Value) : string :=
  match v with
  | Data JNull => "None"
  | Data (JBool b) => if b then "True" else "False"
  | Data (JInt z) => pretty z
  | Data (JStr s) => s
  | Data j => repr_of bi j
  | Object repr => repr
  end.

(** The digits of an integer literal: one or more ASCII digits, single
    underscores allowed between two digits. *)
Fixpoint digits (s : string) (acc : Z) (after_digit : bool) : option Z :=
  match s with
  | EmptyString => if after_digit then Some acc else None
  | String c s' =>
      match Ascii.is_nat c with
      | Some d => digits s' (10 * acc + Z.of_nat d) true
      | None =>
          if Ascii.eqb c "_" && after_digit then digits s' acc false else None
      end
  end.

(** [int(s)] of a string: surrounding whitespace, an optional sign, digits.
    Digits beyond ASCII, which Python converts too, are not: for such a
    string the result here is [None]. *)
Definition parse_int (s : string) : option Z :=
  match Text.py_strip s with
  | String "+" rest => digits rest 0 false
  | String "-" rest => Z.opp <$> digits rest 0 false
  | t => digits t 0 false
  end.

(** [int(v)]: [ValueError] for a string that is no integer literal,
    [TypeError] for a value that is no number and no string. *)
Definition int (v : Value) : result Exn Z :=
  match v with
  | Data (JInt z) => Ok z
  | Data (JBool b) => Ok (if b then 1 else 0)
  | Data (JDec m e) => Ok (if 0 <=? e then m * 10 ^ e else Z.quot m (10 ^ (- e)))
  | Data (JStr s) =>
      match parse_int s with
      | Some z => Ok z
      | None => Err ValueError
      end
  | _ => Err TypeError
  end.

(** What [json.dump(..., default=str)] writes for a value, which is what
    [json.load] reads back. *)
Definition dumped (v : Value) : Json :=
  match v with
  | Data j => j
  | Object repr => JStr repr
  end.

End Py.

(** ** Memory store: [remember], [recall] and [clear_memory] of
    tools/interaction.py *)

Module MemoryStore.
Import Py.

(** A key: a string, as the signatures say, or a value Python cannot hash
    (a list, a dictionary), for which using it as a dictionary key raises
    the [TypeError] whose text is [complaint]. *)
Inductive Key : Type :=
  | KStr (s : string)
  | KUnhashable (complaint : string).

(** The file data/memory.json: missing; present but [open] or [json.load]
    raises; holding a JSON value that is not an object, on which item
    assignment raises the [TypeError] whose text is [complaint]; or
    holding a JSON object. *)
Inductive MemoryFile : Type :=
  | Absent
  | Unreadable
  | NotADict (complaint : string)
  | Mapping (entries : gmap string Json).

(** What the file system does to the next call that writes: nothing
    special, [os.makedirs] raises, [open(memory_file, 'w')] raises (the
    file is as it was), or [json.dump] raises after [open] has emptied the
    file.  The text is [str(e)] of the exception. *)
Inductive Fault : Type :=
  | NoFault
  | MakedirsFails (e : string)
  | OpenFails (e : string)
  | DumpFails (e : string).

(** The module-level dictionary [_memory_store], the file, and the faults
    of the coming writing calls, one per call. *)
Record Store : Type := {
  _memory_store : gmap string Value;
  memory_json : MemoryFile;
  faults : list Fault
}.

(** [{'status': 'success', 'key': .., 'value': ..}] or
    [{'status': 'error', 'message': ..}]. *)
Inductive Stored : Type :=
  | StoredOk (key : Key) (value : Value)
  | StoreFailed (message : string).

Inductive Source : Type := Memory | Disk | Default.

(** The text under ['source']. *)
Definition source_name (s : Source) : string :=
  match s with
  | Memory => "memory"
  | Disk => "disk"
  | Default => "default"
  end.

(** [{'status': 'success', 'key': .., 'value': .., 'source': ..}] or
    [{'status': 'error', 'message': ..}]. *)
Inductive Recalled : Type :=
  | Retrieved (key : Key) (value : Value) (source : Source)
  | RecallFailed (message : string).

Inductive Cleared : Type :=
  | ClearedOk (message : string)
  | ClearFailed (message : string).

Definition next_fault (st : Store) : Fault := hd NoFault (faults st).

Definition remember (key : Key) (value : Value) (st : Store) : Stored * Store :=
  match key with
  | KUnhashable complaint =>
      (StoreFailed ("Failed to store value: " +:+ complaint), st)
  | KStr k =>
      let cached := <[k := value]> (_memory_store st) in
      let failed (e : string) (file : MemoryFile) :=
        (StoreFailed ("Failed to store value: " +:+ e),
         {| _memory_store := cached; memory_json := file;
            faults := tl (faults st) |}) in
      match next_fault st with
      | MakedirsFails e => failed e (memory_json st)
      | fault =>
          let disk_memory : result string (gmap string Json) :=
            match memory_json st with
            | Absent => Ok ∅
            | Unreadable => Ok ∅
            | NotADict complaint => Err complaint
            | Mapping entries => Ok entries
            end in
          match disk_memory with
          | Err complaint => failed complaint (memory_json st)
          | Ok disk_memory =>
              match fault with
              | OpenFails e => failed e (memory_json st)
              | DumpFails e => failed e Unreadable
              | _ =>
                  (StoredOk key value,
                   {| _memory_store := cached;
                      memory_json := Mapping (<[k := dumped value]> disk_memory);
                      faults := tl (faults st) |})
              end
          end
      end
  end.

(** [key in disk_memory] and [disk_memory[key]] on what [json.load] gave;
    on a value that is not an object one of the two raises, which the
    inner [except] passes over. *)
Definition on_disk (k : string) (file : MemoryFile) : option Json :=
  match file with
  | Mapping entries => entries !! k
  | _ => None
  end.

Definition recall (key : Key) (default : Value) (st : Store) : Recalled * Store :=
  match key with
  | KUnhashable complaint =>
      (RecallFailed ("Failed to retrieve value: " +:+ complaint), st)
  | KStr k =>
      match _memory_store st !! k with
      | Some value => (Retrieved key value Memory, st)
      | None =>
          match on_disk k (memory_json st) with
          | Some j =>
              (Retrieved key (Data j) Disk,
               {| _memory_store := <[k := Data j]> (_memory_store st);
                  memory_json := memory_json st;
                  faults := faults st |})
          | None =>
              if is_none default
              then (RecallFailed ("Key not found: " +:+ k), st)
              else (Retrieved key default Default, st)
          end
      end
  end.

Definition clear_memory (st : Store) : Cleared * Store :=
  match memory_json st with
  | Absent =>
      (ClearedOk "Memory cleared",
       {| _memory_store := ∅; memory_json := Absent; faults := faults st |})
  | file =>
      match next_fault st with
      | OpenFails e =>
          (ClearFailed ("Failed to clear memory: " +:+ e),
           {| _memory_store := ∅; memory_json := file; faults := tl (faults st) |})
      | DumpFails e =>
          (ClearFailed ("Failed to clear memory: " +:+ e),
           {| _memory_store := ∅; memory_json := Unreadable;
              faults := tl (faults st) |})
      | _ =>
          (ClearedOk "Memory cleared",
           {| _memory_store := ∅; memory_json := Mapping ∅;
              faults := tl (faults st) |})
      end
  end.

(** A new process: the module is loaded again, [_memory_store = {}]. *)
Definition restart (st : Store) : Store :=
  {| _memory_store := ∅; memory_json := memory_json st; faults := faults st |}.

(** [result['status'] == 'success']. *)
Definition stored_ok (r : Stored) : bool :=
  match r with StoredOk _ _ => true | StoreFailed _ => false end.

Definition recalled_ok (r : Recalled) : bool :=
  match r with Retrieved _ _ _ => true | RecallFailed _ => false end.

End MemoryStore.

(** ** Interaction gate: [get_user_input], [ensure_required_inputs] and
    [confirm_action] of tools/interaction.py *)

Module InteractionGate.
Import Py MemoryStore.

(** The terminal: the lines the operator is going to type, and the prompts
    [input] has displayed so far.  What [print] and the logger write is not
    recorded. *)
Record Console : Type := {
  pending : list string;
  asked : list string
}.

(** The prompt as displayed. *)
Definition display_prompt (bi : Builtins) (prompt : string) (default : Value)
    (options : list string) : string :=
  let with_options :=
    match options with
    | [] => prompt
    | _ => prompt +:+ " (" +:+ Text.join "/" options +:+ ")"
    end in
  let with_default :=
    if truthy default
    then with_options +:+ " [default: " +:+ str bi default +:+ "]"
    else with_options in
  with_default +:+ ": ".

(** The [while True] loop: one round per line typed; [input] raises
    [EOFError] when there is no line left. *)
Fixpoint ask (default : Value) (options : list string) (shown : string)
    (lines : list string) (asked_so_far : list string)
    : result Exn (Value * Console) :=
  match lines with
  | [] => Err EOFError
  | line :: rest =>
      let user_input := Text.py_strip line in
      if Text.is_empty user_input && truthy default
      then Ok (default, {| pending := rest; asked := asked_so_far ++ [shown] |})
      else
        match options with
        | _ :: _ =>
            if Text.mem user_input options
            then Ok (text user_input,
                     {| pending := rest; asked := asked_so_far ++ [shown] |})
            else ask default options shown rest (asked_so_far ++ [shown])
        | [] => Ok (text user_input,
                    {| pending := rest; asked := asked_so_far ++ [shown] |})
        end
  end.

(** [options] is the list given, empty for [None]. *)
Definition get_user_input (bi : Builtins) (prompt : string) (default : Value)
    (options : list string) (c : Console) : result Exn (Value * Console) :=
  ask default options (display_prompt bi prompt default options)
    (pending c) (asked c).

(** The properties of one required input; an entry the dictionary lacks is
    [None] for the prompt, Python's [None] for the default, the empty list
    for the options and "str" for the type. *)
Record InputProps : Type := {
  p_prompt : option string;
  p_default : Value;
  p_options : list string;
  p_type : string
}.

(** The conversion to the requested type.  A failing [int] or [float] is
    passed over, the value staying as it was; [value.lower()] of the bool
    branch is outside any [try] and raises on a value that is no string. *)
Definition convert (bi : Builtins) (input_type : string) (value : Value)
    : result Exn Value :=
  if bool_decide (input_type = "int") then
    Ok (match int value with Ok z => Data (JInt z) | Err _ => value end)
  else if bool_decide (input_type = "float") then
    Ok (match float_of bi value with Ok (m, e) => Data (JDec m e) | Err _ => value end)
  else if bool_decide (input_type = "bool") then
    match value with
    | Data (JStr s) =>
        Ok (Data (JBool (Text.mem (Text.lower s) ["true"; "yes"; "y"; "1"])))
    | _ => Err AttributeError
    end
  else Ok value.

(** The [for] loop over [required_inputs.items()], [resolved] being the
    dictionary [result] under construction. *)
Fixpoint resolve (bi : Builtins) (required_inputs : list (string * InputProps))
    (resolved : gmap string Value) (st : Store) (c : Console)
    : result Exn (gmap string Value * Store * Console) :=
  match required_inputs with
  | [] => Ok (resolved, st, c)
  | (input_name, properties) :: rest =>
      match recall (KStr input_name) none st with
      | (Retrieved _ value _, st1) =>
          resolve bi rest (<[input_name := value]> resolved) st1 c
      | (RecallFailed _, st1) =>
          let prompt := default ("Please enter " +:+ input_name) (p_prompt properties) in
          match get_user_input bi prompt (p_default properties)
                  (p_options properties) c with
          | Err e => Err e
          | Ok (value, c1) =>
              match convert bi (p_type properties) value with
              | Err e => Err e
              | Ok value =>
                  let st2 := (remember (KStr input_name) value st1).2 in
                  resolve bi rest (<[input_name := value]> resolved) st2 c1
              end
          end
      end
  end.

(** The dictionary returned under ['inputs']; ['status'] is always
    'success'. *)
Definition ensure_required_inputs (bi : Builtins)
    (required_inputs : list (string * InputProps)) (st : Store) (c : Console)
    : result Exn (gmap string Value * Store * Console) :=
  resolve bi required_inputs ∅ st c.

(** What a pass adds to [result] for an input it finds in [_memory_store]. *)
Definition taken_from (memory resolved : gmap string Value)
    (entry : string * InputProps) : gmap string Value :=
  match memory !! entry.1 with
  | Some value => <[entry.1 := value]> resolved
  | None => resolved
  end.

Definition confirm_action (bi : Builtins) (action_description : string)
    (default : bool) (c : Console) : result Exn (bool * Console) :=
  let default_str := if default then "Y/n" else "y/N" in
  match get_user_input bi
          ("Do you want to " +:+ action_description +:+ "? " +:+ default_str)
          none [] c with
  | Err e => Err e
  | Ok (response, c') =>
      if negb (truthy response) then Ok (default, c')
      else
        match response with
        | Data (JStr r) =>
            Ok (Text.mem (Text.lower r) ["y"; "yes"; "true"; "1"], c')
        | _ => Err AttributeError
        end
  end.

End InteractionGate.

(** ** Lead acquisition: tools/get_leads.py *)

Module LeadAcquisition.
Import Py MemoryStore InteractionGate.

(** A lead dictionary, with the keys of the module's [fieldnames]:
    name, title, company, email, linkedin, industry, location, website. *)
Record Lead : Type := {
  l_name : string;
  l_title : string;
  l_company : string;
  l_email : string;
  l_linkedin : string;
  l_industry : string;
  l_location : string;
  l_website : string
}.

(** One entry of the ['people'] array Apollo answers, as the adapter reads
    it: each text is the string the entry carries under that key, or the
    empty string when the entry has no such key; [contact_locations] is
    empty when the entry has none. *)
Record Person : Type := {
  first_name : string;
  last_name : string;
  person_title : string;
  organization_name : string;
  person_email : string;
  linkedin_url : string;
  contact_locations : list string;
  organization_website_url : string
}.

(** One item of the Apify dataset, read the same way; [org_industry] is
    [None] when the organization names no industry. *)
Record Item : Type := {
  item_name : string;
  item_title : string;
  item_organization_name : string;
  item_email : string;
  item_linkedin_url : string;
  org_industry : option string;
  city : string;
  state : string;
  country : string;
  item_website_url : string
}.

(** The JSON body posted to https://api.apollo.io/v1/people/search; [page]
    is 1 and [q_organization_domains] is empty. *)
Record ApolloSearch : Type := {
  api_key : string;
  person_titles : list string;
  organization_industry_tag_ids : list string;
  search_locations : list string;
  per_page : Z
}.

(** The [input] posted to the Apify actor code_crafter/apollo-io-scraper;
    [cleanOutput] is [False]. *)
Record ApifyInput : Type := {
  totalRecords : Z;
  url : string
}.

(** What a request comes to: the call or the decoding of its answer
    raises ([e] is [str(e)]), the answer lacks the key the adapter looks
    for (with the message it carries, if any), or it has it. *)
Inductive ApolloReply : Type :=
  | ApolloRaises (e : string)
  | ApolloRefuses (message : option string)
  | ApolloPeople (people : list Person).

Inductive StartReply : Type :=
  | StartRaises (e : string)
  | StartRefused (message : option string)
  | Started (run_id : string).

Inductive StatusReply : Type :=
  | StatusRaises (e : string)
  | Status (status : option string).

Inductive ItemsReply : Type :=
  | ItemsRaises (e : string)
  | Items (items : list Item).

(** The two providers; [apify_status run_id n] answers the poll that
    follows [n] earlier ones. *)
Record Providers : Type := {
  apollo_search : ApolloSearch → ApolloReply;
  apify_start : string → ApifyInput → StartReply;
  apify_status : string → nat → StatusReply;
  apify_items : string → ItemsReply
}.

(** The file data/leads.csv: missing; present but reading it raises
    ([complaint] is [str(e)]); or a header and rows. *)
Inductive LeadsFile : Type :=
  | NoFile
  | Unusable (complaint : string)
  | Table (rows : list Lead).

Inductive Call : Type :=
  | ApolloCall (search : ApolloSearch)
  | ApifyStart (key : string) (input : ApifyInput)
  | ApifyPoll (run_id : string)
  | ApifyDataset (run_id : string).

(** Everything [get_leads] reads and changes: the memory store, the
    terminal, leads.csv, the requests sent so far and the seconds slept. *)
Record World : Type := {
  store : Store;
  console : Console;
  leads_csv : LeadsFile;
  calls : list Call;
  slept : nat
}.

(** [{'status': 'success', 'count': .., 'leads': ..}] or [{'error': ..}]. *)
Inductive LeadsResult : Type :=
  | LeadsOk (count : nat) (leads : list Lead)
  | LeadsError (error : string).

Definition called (call : Call) (w : World) : World :=
  {| store := store w; console := console w; leads_csv := leads_csv w;
     calls := calls w ++ [call]; slept := slept w |}.

Definition with_leads_csv (file : LeadsFile) (w : World) : World :=
  {| store := store w; console := console w; leads_csv := file;
     calls := calls w; slept := slept w |}.

Definition sleep (seconds : nat) (w : World) : World :=
  {| store := store w; console := console w; leads_csv := leads_csv w;
     calls := calls w; slept := slept w + seconds |}.

(** [not os.getenv(key)] gives [None]; otherwise the value. *)
Definition getenv (environ : gmap string string) (key : string) : option string :=
  match environ !! key with
  | Some v => if Text.is_empty v then None else Some v
  | None => None
  end.

(** [save_leads_to_csv]: a new file gets the header and the rows, an
    existing one gets the rows appended; nothing is returned and an
    exception is only printed. *)
Definition save_leads_to_csv (leads : list Lead) (w : World) : World :=
  match leads_csv w with
  | NoFile => with_leads_csv (Table leads) w
  | Unusable complaint => w
  | Table rows => with_leads_csv (Table (rows ++ leads)) w
  end.

Definition lead_of_person (industry location : string) (person : Person) : Lead :=
  {| l_name := Text.py_strip (first_name person +:+ " " +:+ last_name person);
     l_title := person_title person;
     l_company := organization_name person;
     l_email := person_email person;
     l_linkedin := linkedin_url person;
     l_industry := industry;
     l_location := match contact_locations person with
                   | first :: _ => first
                   | [] => location
                   end;
     l_website := organization_website_url person |}.

(** The [payload] of the Apollo adapter. *)
Definition apollo_payload (key industry role location : string) (count : Z)
    : ApolloSearch :=
  {| api_key := key; person_titles := [role];
     organization_industry_tag_ids := [industry];
     search_locations := [location]; per_page := count |}.

Definition get_leads_from_apollo (environ : gmap string string) (P : Providers)
    (industry role location : string) (count : Z) (w : World)
    : LeadsResult * World :=
  match getenv environ "APOLLO_API_KEY" with
  | None => (LeadsError "Apollo API key not found in environment variables", w)
  | Some key =>
      let payload := apollo_payload key industry role location count in
      let w1 := called (ApolloCall payload) w in
      match apollo_search P payload with
      | ApolloRaises e => (LeadsError ("Apollo API error: " +:+ e), w1)
      | ApolloRefuses message =>
          (LeadsError ("Apollo API error: " +:+ default "Unknown error" message), w1)
      | ApolloPeople people =>
          let leads := lead_of_person industry location <$> people in
          (LeadsOk (length leads) leads, save_leads_to_csv leads w1)
      end
  end.

Definition max_attempts : nat := 30.

Inductive PollOutcome : Type :=
  | Succeeded
  | RunFailed (status : string)
  | PollRaised (e : string)
  | Exhausted.

(** The [while attempts < max_attempts] loop, [remaining] being
    [max_attempts - attempts]. *)
Fixpoint poll (P : Providers) (run_id : string) (remaining attempts : nat)
    (w : World) : PollOutcome * World :=
  match remaining with
  | O => (Exhausted, w)
  | S remaining' =>
      let w1 := called (ApifyPoll run_id) w in
      match apify_status P run_id attempts with
      | StatusRaises e => (PollRaised e, w1)
      | Status status =>
          if bool_decide (status = Some "SUCCEEDED") then (Succeeded, w1)
          else
            match status with
            | Some s =>
                if Text.mem s ["FAILED"; "ABORTED"; "TIMED-OUT"]
                then (RunFailed s, w1)
                else poll P run_id remaining' (S attempts) (sleep 5 w1)
            | None => poll P run_id remaining' (S attempts) (sleep 5 w1)
            end
      end
  end.

(** [', '.join(filter(None, [city, state, country])) or location]. *)
Definition lead_location (location : string) (item : Item) : string :=
  let parts :=
    List.filter (λ s, negb (Text.is_empty s)) [city item; state item; country item] in
  match Text.join ", " parts with
  | EmptyString => location
  | joined => joined
  end.

Definition lead_of_item (industry location : string) (item : Item) : Lead :=
  {| l_name := item_name item;
     l_title := item_title item;
     l_company := item_organization_name item;
     l_email := item_email item;
     l_linkedin := item_linkedin_url item;
     l_industry := default industry (org_industry item);
     l_location := lead_location location item;
     l_website := item_website_url item |}.

Definition apollo_url (role : string) : string :=
  let base := "https://app.apollo.io/#/people?sortAscending=false&sortByField=recommendations_score&page=1" in
  if Text.is_empty role then base
  else base +:+ "&personTitles[]=" +:+ Text.plus_for_space (Text.lower role).

(** The [input_data] of the Apify adapter. *)
Definition apify_input (role : string) (count : Z) : ApifyInput :=
  {| totalRecords := count; url := apollo_url role |}.

Definition get_leads_from_apify (environ : gmap string string) (P : Providers)
    (industry role location : string) (count : Z) (w : World)
    : LeadsResult * World :=
  match getenv environ "APIFY_API_KEY" with
  | None => (LeadsError "Apify API key not found in environment variables", w)
  | Some key =>
      let input_data := apify_input role count in
      let w1 := called (ApifyStart key input_data) w in
      match apify_start P key input_data with
      | StartRaises e => (LeadsError ("Apify error: " +:+ e), w1)
      | StartRefused message =>
          (LeadsError ("Apify error: " +:+ default "Unknown error" message), w1)
      | Started run_id =>
          match poll P run_id max_attempts 0%nat w1 with
          | (PollRaised e, w2) => (LeadsError ("Apify error: " +:+ e), w2)
          | (RunFailed status, w2) =>
              (LeadsError ("Apify run failed with status: " +:+ status), w2)
          | (Exhausted, w2) => (LeadsError "Apify run timed out", w2)
          | (Succeeded, w2) =>
              let w3 := called (ApifyDataset run_id) w2 in
              match apify_items P run_id with
              | ItemsRaises e => (LeadsError ("Apify error: " +:+ e), w3)
              | Items items =>
                  let leads := lead_of_item industry location <$> items in
                  (LeadsOk (length leads) leads, save_leads_to_csv leads w3)
              end
          end
      end
  end.

(** The ten rows [create_sample_leads_file] writes. *)
Definition sample_leads : list Lead :=
  let lead name title company email linkedin location website :=
    {| l_name := name; l_title := title; l_company := company;
       l_email := email; l_linkedin := linkedin; l_industry := "AI SaaS";
       l_location := location; l_website := website |} in
  [lead "Alice Smith" "Founder" "GrowthAI" "alice@growthai.io"
     "https://linkedin.com/in/alicesmith" "United States" "https://growthai.io";
   lead "Bob Johnson" "CTO" "TechBoost" "bob@techboost.io"
     "https://linkedin.com/in/bobjohnson" "United States" "https://techboost.io";
   lead "Carol Williams" "CEO" "DataFlow" "carol@dataflow.ai"
     "https://linkedin.com/in/carolwilliams" "United Kingdom" "https://dataflow.ai";
   lead "David Brown" "Founder" "AIScale" "david@aiscale.io"
     "https://linkedin.com/in/davidbrown" "Germany" "https://aiscale.io";
   lead "Emma Davis" "CEO" "NeuralWorks" "emma@neuralworks.ai"
     "https://linkedin.com/in/emmadavis" "France" "https://neuralworks.ai";
   lead "Frank Miller" "CTO" "AIConnect" "frank@aiconnect.io"
     "https://linkedin.com/in/frankmiller" "Canada" "https://aiconnect.io";
   lead "Grace Wilson" "Founder" "SmartAI" "grace@smartai.tech"
     "https://linkedin.com/in/gracewilson" "Australia" "https://smartai.tech";
   lead "Henry Taylor" "CEO" "AIVenture" "henry@aiventure.io"
     "https://linkedin.com/in/henrytaylor" "Singapore" "https://aiventure.io";
   lead "Irene Clark" "Founder" "BrainTech" "irene@braintech.ai"
     "https://linkedin.com/in/ireneclark" "Netherlands" "https://braintech.ai";
   lead "Jack Roberts" "CTO" "IntelliSoft" "jack@intellisoft.io"
     "https://linkedin.com/in/jackroberts" "Sweden" "https://intellisoft.io"].

(** [create_sample_leads_file]. *)
Definition create_sample_leads_file (w : World) : World :=
  with_leads_csv (Table sample_leads) w.

(** One filter of the CSV adapter: no filter when [wanted] is empty or
    [None]; otherwise the row's text, lowercased, equals or contains the
    lowercased filter. *)
Definition passes (wanted found : string) : bool :=
  Text.is_empty wanted
  || bool_decide (Text.lower found = Text.lower wanted)
  || Text.contains (Text.lower wanted) (Text.lower found).

Definition matches (industry role location : string) (row : Lead) : bool :=
  passes industry (l_industry row) && passes role (l_title row)
  && passes location (l_location row).

(** The [for row in reader] loop: a matching row is appended, and the loop
    breaks once [len(leads) >= count]. *)
Fixpoint read_rows (industry role location : string) (count : Z)
    (rows : list Lead) (leads : list Lead) : list Lead :=
  match rows with
  | [] => leads
  | row :: rest =>
      if matches industry role location row then
        let leads := leads ++ [row] in
        if count <=? Z.of_nat (length leads) then leads
        else read_rows industry role location count rest leads
      else read_rows industry role location count rest leads
  end.

(** The answer of the CSV adapter on the rows of the file. *)
Definition found (industry role location : string) (count : Z)
    (rows : list Lead) : LeadsResult :=
  let leads := read_rows industry role location count rows [] in
  LeadsOk (length leads) leads.

(** [get_leads_from_csv]; creating the directory and writing the sample
    file are taken to go through. *)
Definition get_leads_from_csv (industry role location : string) (count : Z)
    (w : World) : LeadsResult * World :=
  match leads_csv w with
  | NoFile =>
      (found industry role location count sample_leads,
       create_sample_leads_file w)
  | Unusable complaint => (LeadsError ("CSV error: " +:+ complaint), w)
  | Table rows => (found industry role location count rows, w)
  end.

(** [os.getenv('TEST_MODE', 'false').lower() == 'true']. *)
Definition test_mode (environ : gmap string string) : bool :=
  bool_decide (Text.lower (default "false" (environ !! "TEST_MODE")) = "true").

(** [result.get('status') == 'success' and result.get('leads')]. *)
Definition usable (r : LeadsResult) : bool :=
  match r with
  | LeadsOk _ (_ :: _) => true
  | _ => false
  end.

(** The [if count is None] block of [get_leads]: the remembered count, or
    the operator's answer, remembered when it is an integer and replaced
    by 5 when it is not. *)
Definition resolve_count (bi : Builtins) (industry role location : string)
    (w : World) : result Exn (Z * World) :=
  match recall (KStr "leads_count") none (store w) with
  | (Retrieved _ value _, st1) =>
      match int value with
      | Err e => Err e
      | Ok count =>
          Ok (count,
              {| store := st1; console := console w; leads_csv := leads_csv w;
                 calls := calls w; slept := slept w |})
      end
  | (RecallFailed _, st1) =>
      match get_user_input bi
              ("How many " +:+ industry +:+ " " +:+ role +:+ " leads from "
               +:+ location +:+ " would you like to find?")
              (text "5") [] (console w) with
      | Err e => Err e
      | Ok (count_input, c1) =>
          match int count_input with
          | Ok count =>
              Ok (count,
                  {| store := (remember (KStr "leads_count") (Data (JInt count)) st1).2;
                     console := c1; leads_csv := leads_csv w;
                     calls := calls w; slept := slept w |})
          | Err ValueError | Err TypeError =>
              Ok (5,
                  {| store := st1; console := c1; leads_csv := leads_csv w;
                     calls := calls w; slept := slept w |})
          | Err e => Err e
          end
      end
  end.

Definition terminal_error : string :=
  "Failed to retrieve leads from all available sources (Apollo, Apify).".

Definition get_leads (bi : Builtins) (environ : gmap string string)
    (P : Providers) (industry role location : string) (count : option Z)
    (w : World) : result Exn (LeadsResult * World) :=
  match match count with
        | Some n => Ok (n, w)
        | None => resolve_count bi industry role location w
        end with
  | Err e => Err e
  | Ok (count, w1) =>
      if test_mode environ
      then Ok (get_leads_from_csv industry role location count w1)
      else
        let '(apollo_result, w2) :=
          get_leads_from_apollo environ P industry role location count w1 in
        if usable apollo_result then Ok (apollo_result, w2)
        else
          let '(apify_result, w3) :=
            get_leads_from_apify environ P industry role location count w2 in
          if usable apify_result then Ok (apify_result, w3)
          else Ok (LeadsError terminal_error, w3)
  end.







End LeadAcquisition.

(** ** Sample data *)

Module Samples.
Import Py MemoryStore InteractionGate.

Definition builtins : Builtins :=
  {| float_of := λ v,
       match v with
       | Data (JDec m e) => Ok (m, e)
       | Data (JInt z) => Ok (z, 0)
       | Data (JStr s) =>
           match parse_int s with
           | Some z => Ok (z, 0)
           | None => Err ValueError
           end
       | _ => Err TypeError
       end;
     repr_of := λ _, "" |}.

(** No memory file yet, nothing remembered, no fault ahead. *)
Definition empty_store : Store :=
  {| _memory_store := ∅; memory_json := Absent; faults := [] |}.

Definition terminal (lines : list string) : Console :=
  {| pending := lines; asked := [] |}.

Definition inputs : list (string * InputProps) :=
  [("lead_count", {| p_prompt := Some "How many leads?"; p_default := text "5";
                     p_options := []; p_type := "int" |});
   ("email_tone", {| p_prompt := None; p_default := none;
                     p_options := ["formal"; "casual"]; p_type := "str" |})].

Definition operator : Console := terminal ["7"; "loud"; " casual "].

Definition answered : gmap string Value :=
  {[ "lead_count" := Data (JInt 7); "email_tone" := text "casual" ]}.

Definition answered_store : Store :=
  {| _memory_store := answered;
     memory_json := Mapping {[ "lead_count" := JInt 7; "email_tone" := JStr "casual" ]};
     faults := [] |}.

Definition operator_after : Console :=
  {| pending := [];
     asked := ["How many leads? [default: 5]: ";
               "Please enter email_tone (formal/casual): ";
               "Please enter email_tone (formal/casual): "] |}.

(** Providers, environments and worlds for the lead-acquisition examples. *)

Definition person (first last role org mail : string) : LeadAcquisition.Person :=
  {| LeadAcquisition.first_name := first; LeadAcquisition.last_name := last;
     LeadAcquisition.person_title := role;
     LeadAcquisition.organization_name := org;
     LeadAcquisition.person_email := mail;
     LeadAcquisition.linkedin_url := "";
     LeadAcquisition.contact_locations := [];
     LeadAcquisition.organization_website_url := "" |}.

Definition contacts : list LeadAcquisition.Person :=
  [person "Barbara" "Liskov" "Founder" "Clu" "barbara@clu.ai";
   person "Tony" "Hoare" "Founder" "Quick" "tony@quick.ai";
   person "Robin" "Milner" "Founder" "Pi" "robin@pi.ai"].

(** An entry of the people array with no key at all. *)
Definition blank_person : LeadAcquisition.Person := person "" "" "" "" "".


(** Every request raises. *)
Definition providers_down : LeadAcquisition.Providers :=
  {| LeadAcquisition.apollo_search := λ _, LeadAcquisition.ApolloRaises "connection refused";
     LeadAcquisition.apify_start := λ _ _, LeadAcquisition.StartRaises "connection refused";
     LeadAcquisition.apify_status := λ _ _, LeadAcquisition.StatusRaises "connection refused";
     LeadAcquisition.apify_items := λ _, LeadAcquisition.ItemsRaises "connection refused" |}.

(** Apollo answers [people] whatever it is asked; Apify is down. *)
Definition providers_apollo (people : list LeadAcquisition.Person)
    : LeadAcquisition.Providers :=
  {| LeadAcquisition.apollo_search := λ _, LeadAcquisition.ApolloPeople people;
     LeadAcquisition.apify_start := λ _ _, LeadAcquisition.StartRaises "connection refused";
     LeadAcquisition.apify_status := λ _ _, LeadAcquisition.StatusRaises "connection refused";
     LeadAcquisition.apify_items := λ _, LeadAcquisition.ItemsRaises "connection refused" |}.


Definition live : gmap string string :=
  {[ "APOLLO_API_KEY" := "ap-key"; "APIFY_API_KEY" := "fy-key" ]}.



Definition testing : gmap string string :=
  {[ "APOLLO_API_KEY" := "ap-key"; "APIFY_API_KEY" := "fy-key";
     "TEST_MODE" := "True" ]}.

(** No leads.csv yet. *)
Definition fresh_world : LeadAcquisition.World :=
  {| LeadAcquisition.store := empty_store;
     LeadAcquisition.console := terminal [];
     LeadAcquisition.leads_csv := LeadAcquisition.NoFile;
     LeadAcquisition.calls := [];
     LeadAcquisition.slept := 0 |}.


(** Requests, database and environment for the web and entry-point examples. *)

Definition no_faults : Supabase.Faults :=
  {| Supabase.select_leads_fails := false;
     Supabase.insert_lead_fails := λ _, false;
     Supabase.insert_agent_fails := λ _, false;
     Supabase.insert_task_fails := λ _, false |}.

Definition db : Supabase.Db :=
  {| Supabase.agent_runs := [ {| Supabase.run_id := "run-1"; Supabase.run_user_id := "ada" |} ];
     Supabase.leads := [];
     Supabase.agents := [];
     Supabase.tasks := [] |}.

Definition request (who : option string) (content : Json) : Request :=
  {| session := who; search := λ _, None; body := Some content |}.

(** A lead with no [full_name]. *)
Definition nameless_lead : list (string * Json) :=
  [("agent_run_id", JStr "run-1"); ("email", JStr "grace@example.com");
   ("company", JStr "Navy"); ("title", JStr "Rear Admiral")].

Definition full_lead : list (string * Json) :=
  ("full_name", JStr "Grace Hopper") :: nameless_lead.

Definition run_settings : Json :=
  JObj [("target_industry", JStr "AI SaaS"); ("target_role", JStr "Founder");
        ("lead_count", JInt 5)].

Definition apollo_config : gmap string Json :=
  {[ "lead_source" := JStr "apollo";
     "email_provider" := JStr "mailersend";
     "crm" := JStr "local_csv" ]}.

Definition environ_without_apollo : gmap string string :=
  {[ "OPENAI_API_KEY" := "sk-test" ]}.


End Samples.
(** ** Loading the configuration: [load_config] and [create_default_config]
    of main.py, and a whole start of the program *)

Module ConfigFile.
Import EntryPoint.

(** What a file holds: JSON text, given by the document it parses to, or
    text that [json.load] refuses. *)
Inductive File : Type :=
  | JsonText (doc : Json)
  | Garbled.

Record FileSystem : Type := {
  files : gmap string File;
  writable : bool
}.

(** The dict [json.load] builds from an object: of two equal keys the later
    one stays. *)
Definition dict_of (fields : list (string * Json)) : gmap string Json :=
  list_to_map (reverse fields).

(** The literal of [create_default_config], in the order it is written. *)
Definition default_fields : list (string * Json) :=
  [("goal", JStr "Book meetings");
   ("industry", JStr "AI SaaS");
   ("location", JStr "United States");
   ("role", JStr "Founder");
   ("product", JStr "an AI that improves cold outreach response rate by 40%");
   ("lead_source", JStr "csv");
   ("email_provider", JStr "gmail");
   ("crm", JStr "airtable");
   ("leads_per_day", JInt 5);
   ("follow_up_days", JInt 2)].

(** [create_default_config(config_path)]: opening the file for writing
    raises when it cannot be written. *)
Definition create_default_config (config_path : string) (fs : FileSystem)
    : result string Json * FileSystem * list string :=
  if writable fs
  then (Ok (JObj default_fields),
        {| files := <[config_path := JsonText (JObj default_fields)]> (files fs);
           writable := writable fs |},
        ["Created default config at " +:+ config_path])
  else (Err "OSError", fs, []).

(** [load_config(config_path)]: only a missing file is caught; text that is
    not JSON raises. *)
Definition load_config (config_path : string) (fs : FileSystem)
    : result string Json * FileSystem * list string :=
  match files fs !! config_path with
  | Some (JsonText doc) => (Ok doc, fs, [])
  | Some Garbled => (Err "JSONDecodeError", fs, [])
  | None =>
      let '(r, fs', out) := create_default_config config_path fs in
      (r, fs', ("Config file not found: " +:+ config_path) :: out)
  end.

(** The parsed command line. *)
Record Args : Type := {
  arg_config : string;
  arg_mode : string
}.

Inductive Outcome : Type :=
  | Raised (exception : string)
  | Finished (r : MainResult).

(** [main()] from the command line on: the configuration is loaded, then
    checked as [EntryPoint.main] does; subscripting a configuration that is
    not a dict raises. *)
Definition start (args : Args) (fs : FileSystem) (environ : gmap string string)
    : Outcome * FileSystem :=
  match load_config (arg_config args) fs with
  | (Err exception, fs', _) => (Raised exception, fs')
  | (Ok (JObj fields), fs', _) =>
      (Finished (main (dict_of fields) (arg_mode args) environ), fs')
  | (Ok _, fs', _) => (Raised "TypeError", fs')
  end.

End ConfigFile.

(** ** app/api/emails/route.ts: [PUT] and [POST], and the actions of the
    emails table *)

(** The two shapes of a JSON answer: [{ error }] with a status, or
    [{ success: true, data }]. *)
Record Reply (A : Type) : Type := {
  reply_status : nat;
  reply_body : result string A
}.
Arguments reply_status {A} r.
Arguments reply_body {A} r.

Definition reply_error {A} (msg : string) (code : nat) : Reply A :=
  {| reply_status := code; reply_body := Err msg |}.

Definition reply_ok {A} (data : A) : Reply A :=
  {| reply_status := 200; reply_body := Ok data |}.

(** [response.ok] *)
Definition reply_is_ok {A} (r : Reply A) : bool :=
  (Nat.leb 200 (reply_status r) && Nat.leb (reply_status r) 299)%bool.

Module EmailsApi.

Record EmailRow : Type := {
  email_user_id : string;
  email_lead_id : Json;
  email_subject : Json;
  email_body : Json;
  email_status : Json;
  sent_at : option string;
  opened_at : option string;
  replied_at : option string
}.

(** The two tables the handlers read and write, keyed by their primary key
    [id]; of a lead only the owner matters here.  A column that was given
    no value holds [JNull]. *)
Record Tables : Type := {
  lead_owner : gmap string string;
  emails : gmap string EmailRow
}.

(** The object handed to [.update()]. *)
Record UpdateData : Type := {
  set_subject : option Json;
  set_body : option Json;
  set_status : option Json;
  set_sent_at : option string;
  set_opened_at : option string;
  set_replied_at : option string
}.

(** What the handler cannot decide: the clock, the id a new row gets, and
    the statements the database answers with an [error]. *)
Record Backend : Type := {
  now : string;
  new_id : string;
  update_fails : string → UpdateData → bool;
  insert_fails : EmailRow → bool
}.

(** [status === s] for a string literal [s]. *)
Definition is_literal (v : option Json) (s : string) : bool :=
  match v with
  | Some (JStr t) => bool_decide (t = s)
  | _ => false
  end.

(** [if (v) updateData.k = v] *)
Definition when_truthy (v : option Json) : option Json :=
  if Js.truthy v then v else None.

Definition update_data (now : string) (subject emailBody status : option Json)
    : UpdateData :=
  {| set_subject := when_truthy subject;
     set_body := when_truthy emailBody;
     set_status := when_truthy status;
     set_sent_at := if is_literal status "sent" then Some now else None;
     set_opened_at := if is_literal status "opened" then Some now else None;
     set_replied_at := if is_literal status "replied" then Some now else None |}.

(** The row after [UPDATE ... SET]: a column not named keeps its value. *)
Definition apply_update (u : UpdateData) (e : EmailRow) : EmailRow :=
  {| email_user_id := email_user_id e;
     email_lead_id := email_lead_id e;
     email_subject := default (email_subject e) (set_subject u);
     email_body := default (email_body e) (set_body u);
     email_status := default (email_status e) (set_status u);
     sent_at := match set_sent_at u with Some t => Some t | None => sent_at e end;
     opened_at := match set_opened_at u with Some t => Some t | None => opened_at e end;
     replied_at := match set_replied_at u with Some t => Some t | None => replied_at e end |}.

(** [.eq('id', id).eq('user_id', userId).single()] on the emails table. *)
Definition own_email (id : option Json) (userId : string) (t : Tables)
    : option (string * EmailRow) :=
  match id with
  | Some (JStr key) =>
      match emails t !! key with
      | Some e => if bool_decide (email_user_id e = userId) then Some (key, e) else None
      | None => None
      end
  | _ => None
  end.

(** [.eq('id', lead_id).eq('user_id', userId).single()] on the leads table. *)
Definition own_lead (lead_id : option Json) (userId : string) (t : Tables) : bool :=
  match lead_id with
  | Some (JStr key) => bool_decide (lead_owner t !! key = Some userId)
  | _ => false
  end.

Definition PUT (bk : Backend) (req : Request) (t : Tables) : Reply EmailRow * Tables :=
  match session req with
  | None => (reply_error "Unauthorized" 401, t)
  | Some userId =>
      match body req ≫= Js.destructure with
      | None => (reply_error "Internal server error" 500, t)
      | Some field =>
          let id := field "id" in
          let subject := field "subject" in
          let emailBody := field "body" in
          let status := field "status" in
          if negb (Js.truthy id)
          then (reply_error "Email ID is required" 400, t)
          else
            match own_email id userId t with
            | None => (reply_error "Email not found or access denied" 404, t)
            | Some (key, existingEmail) =>
                let updateData := update_data (now bk) subject emailBody status in
                if update_fails bk key updateData
                then (reply_error "Failed to update email" 500, t)
                else
                  let updatedEmail := apply_update updateData existingEmail in
                  (reply_ok updatedEmail,
                   {| lead_owner := lead_owner t;
                      emails := <[key := updatedEmail]> (emails t) |})
            end
      end
  end.

Definition POST (bk : Backend) (req : Request) (t : Tables) : Reply EmailRow * Tables :=
  match session req with
  | None => (reply_error "Unauthorized" 401, t)
  | Some userId =>
      match body req ≫= Js.destructure with
      | None => (reply_error "Internal server error" 500, t)
      | Some field =>
          let lead_id := field "lead_id" in
          let subject := field "subject" in
          let emailBody := field "body" in
          let action := field "action" in
          if negb (Js.truthy lead_id) || negb (Js.truthy subject)
             || negb (Js.truthy emailBody)
          then (reply_error "Lead ID, subject, and body are required" 400, t)
          else if negb (own_lead lead_id userId t)
          then (reply_error "Lead not found or access denied" 404, t)
          else
            let sending := is_literal action "send" in
            let email :=
              {| email_user_id := userId;
                 email_lead_id := default JNull lead_id;
                 email_subject := default JNull subject;
                 email_body := default JNull emailBody;
                 email_status := JStr (if sending then "sent" else "draft");
                 sent_at := if sending then Some (now bk) else None;
                 opened_at := None;
                 replied_at := None |} in
            if insert_fails bk email || bool_decide (is_Some (emails t !! new_id bk))
            then (reply_error "Failed to create email" 500, t)
            else (reply_ok email,
                  {| lead_owner := lead_owner t;
                     emails := <[new_id bk := email]> (emails t) |})
      end
  end.

(** The request [handleAction(email, action)] of the emails table sends:
    method, endpoint and body. *)
Record Fetch : Type := {
  fetch_method : string;
  fetch_endpoint : string;
  fetch_body : Json
}.

Definition handleAction (email_id : string) (action : string) : Fetch :=
  if bool_decide (action = "approve")
  then {| fetch_method := "PUT"; fetch_endpoint := "/api/emails";
          fetch_body := JObj [("id", JStr email_id); ("status", JStr "approved")] |}
  else if bool_decide (action = "send")
  then {| fetch_method := "PUT"; fetch_endpoint := "/api/emails";
          fetch_body := JObj [("id", JStr email_id); ("status", JStr "sent")] |}
  else if bool_decide (action = "regenerate")
  then {| fetch_method := "POST"; fetch_endpoint := "/api/emails/regenerate";
          fetch_body := JObj [("email_id", JStr email_id)] |}
  else {| fetch_method := "PUT"; fetch_endpoint := "/api/emails";
          fetch_body := JObj [("id", JStr email_id)] |}.

(** The buttons of a row: Approve for a draft, Send for a draft or an
    approved email. *)
Definition offers_approve (status : Json) : bool :=
  is_literal (Some status) "draft".

Definition offers_send (status : Json) : bool :=
  is_literal (Some status) "draft" || is_literal (Some status) "approved".

(** The timestamps go with the statuses: a sent email has [sent_at], an
    opened one [opened_at], a replied one [replied_at]. *)
Definition stamped (e : EmailRow) : Prop :=
  (email_status e = JStr "sent" → is_Some (sent_at e))
  ∧ (email_status e = JStr "opened" → is_Some (opened_at e))
  ∧ (email_status e = JStr "replied" → is_Some (replied_at e)).

(** Subject, body and status hold a value. *)
Definition filled (e : EmailRow) : bool :=
  Js.truthy (Some (email_subject e)) && Js.truthy (Some (email_body e))
  && Js.truthy (Some (email_status e)).

End EmailsApi.

(** ** The chat route ([GET] and [POST]) and the chat interface *)

Module ChatApi.

Record ChatRow : Type := {
  chat_user_id : string;
  chat_agent_run_id : option Json;
  chat_role : string;
  chat_content : Json
}.

(** The two tables the route uses, each in the order of [created_at]. *)
Record ChatDb : Type := {
  runs : list Supabase.AgentRunRow;
  chat_messages : list ChatRow
}.

Record ChatFaults : Type := {
  select_messages_fails : bool;
  insert_message_fails : ChatRow → bool
}.

(** The [data] of a successful [POST]. *)
Record Saved : Type := {
  user_message : ChatRow;
  ai_message : option ChatRow
}.

Definition canned_reply : string :=
  "I received your message. I am processing your request...".

Definition truthy_param (p : option string) : option string :=
  match p with
  | Some v => if Text.is_empty v then None else Some v
  | None => None
  end.

Definition GET (faults : ChatFaults) (req : Request) (db : ChatDb)
    : Reply (list ChatRow) * ChatDb :=
  match session req with
  | None => (reply_error "Unauthorized" 401, db)
  | Some userId =>
      let of_user :=
        List.filter (λ m, bool_decide (chat_user_id m = userId)) (chat_messages db) in
      let of_run (id : string) :=
        List.filter (λ m, Supabase.eq_text (chat_agent_run_id m) id) of_user in
      let messages :=
        match truthy_param (search req "agent_run_id") with
        | Some agentRunId => of_run agentRunId
        | None =>
            let latestRun :=
              last (List.filter (λ r, bool_decide (Supabase.run_user_id r = userId))
                      (runs db)) in
            match latestRun with
            | Some run => of_run (Supabase.run_id run)
            | None => of_user
            end
        end in
      if select_messages_fails faults
      then (reply_error "Failed to fetch messages" 500, db)
      else (reply_ok messages, db)
  end.

Definition POST (faults : ChatFaults) (req : Request) (db : ChatDb)
    : Reply Saved * ChatDb :=
  match session req with
  | None => (reply_error "Unauthorized" 401, db)
  | Some userId =>
      match body req ≫= Js.destructure with
      | None => (reply_error "Internal server error" 500, db)
      | Some field =>
          let content := field "content" in
          let agent_run_id := field "agent_run_id" in
          if negb (Js.truthy content)
          then (reply_error "Message content is required" 400, db)
          else
            let userMessage :=
              {| chat_user_id := userId; chat_agent_run_id := agent_run_id;
                 chat_role := "user"; chat_content := default JNull content |} in
            if insert_message_fails faults userMessage
            then (reply_error "Failed to save message" 500, db)
            else
              let aiMessage :=
                {| chat_user_id := userId; chat_agent_run_id := agent_run_id;
                   chat_role := "assistant"; chat_content := JStr canned_reply |} in
              if insert_message_fails faults aiMessage
              then (reply_ok {| user_message := userMessage; ai_message := None |},
                    {| runs := runs db;
                       chat_messages := chat_messages db ++ [userMessage] |})
              else (reply_ok {| user_message := userMessage;
                                ai_message := Some aiMessage |},
                    {| runs := runs db;
                       chat_messages := chat_messages db ++ [userMessage; aiMessage] |})
      end
  end.

(** The state of the chat interface. *)
Record ChatState : Type := {
  messages : list ChatRow;
  input : string;
  isLoading : bool
}.

(** [JSON.stringify({ content, agent_run_id: agentRun?.id })]: an undefined
    property is left out. *)
Definition message_json (content : string) (agentRun : option string) : Json :=
  JObj (("content", JStr content)
          :: match agentRun with
             | Some id => [("agent_run_id", JStr id)]
             | None => []
             end).

(** [handleSendMessage] of the chat interface, the request going to [POST]
    of the chat route with the browser's session [cookie]. *)
Definition handleSendMessage (faults : ChatFaults) (cookie : option string)
    (agentRun : option string) (st : ChatState) (db : ChatDb) : ChatState * ChatDb :=
  if Text.is_empty (Text.js_trim (input st)) || isLoading st then (st, db)
  else
    let messageContent := Text.js_trim (input st) in
    let '(response, db') :=
      POST faults
        {| session := cookie; search := λ _, None;
           body := Some (message_json messageContent agentRun) |} db in
    let shown :=
      match reply_is_ok response, reply_body response with
      | true, Ok data =>
          messages st ++ [user_message data]
            ++ match ai_message data with Some m => [m] | None => [] end
      | _, _ => messages st
      end in
    ({| messages := shown; input := ""; isLoading := false |}, db').

(** [isLongMessage] and [displayContent] of a chat message.  The content,
    a JavaScript string, is the sequence of its UTF-16 code units, which is
    what [length] counts and [substring] cuts; the three dots are the code
    unit 46 three times. *)
Definition isLongMessage (content : list N) : bool :=
  Nat.ltb 500 (length content).

Definition displayContent (content : list N) (isExpanded : bool) : list N :=
  if isLongMessage content && negb isExpanded
  then take 500 content ++ [46; 46; 46]%N
  else content.

End ChatApi.

(** ** The run-agent modal *)

Module RunAgentModal.

Record FormData : Type := {
  target_industry : string;
  target_role : string;
  target_region : string;
  lead_count : option Z;   (* None is NaN *)
  email_tone : string;
  email_objective : string
}.

Definition initial_form : FormData :=
  {| target_industry := ""; target_role := ""; target_region := "";
     lead_count := Some 10; email_tone := "professional";
     email_objective := "book_call" |}.

(** [JSON.stringify(formData)]: NaN is written as null. *)
Definition form_json (f : FormData) : Json :=
  JObj [("target_industry", JStr (target_industry f));
        ("target_role", JStr (target_role f));
        ("target_region", JStr (target_region f));
        ("lead_count", match lead_count f with Some n => JInt n | None => JNull end);
        ("email_tone", JStr (email_tone f));
        ("email_objective", JStr (email_objective f))].

(** The JSON the run route answers with; the lead payloads belong to the
    leads route. *)
Definition response_json (r : Response) : Json :=
  match payload r with
  | ErrorBody msg => JObj [("error", JStr msg)]
  | AgentStarted agent status =>
      JObj [("success", JBool true);
            ("data", JObj [("agent_id", JInt (Z.of_nat agent));
                           ("status", JStr status)])]
  | LeadCreated _ | LeadList _ => JObj [("success", JBool true)]
  end.

(** [response.ok] *)
Definition response_ok (r : Response) : bool :=
  (Nat.leb 200 (status_code r) && Nat.leb (status_code r) 299)%bool.

Record ModalState : Type := {
  isLoading : bool;
  error : option string;
  closed : bool;
  pushed : option string
}.

(** [obj.key] on a parsed answer. *)
Definition property (obj : option Json) (key : string) : option Json :=
  match obj with
  | Some (JObj fields) => Js.obj_get key fields
  | _ => None
  end.

(** [handleSubmit] of the modal, the request going to [POST] of the run
    route.  [to_string] is the text a template literal gives a defined
    value; an undefined one reads "undefined". *)
Definition handleSubmit (to_string : Json → string) (faults : Supabase.Faults)
    (cookie : option string) (formData : FormData) (db : Supabase.Db)
    : ModalState * Supabase.Db :=
  let '(response, db') :=
    AgentRunApi.POST faults
      {| session := cookie; search := λ _, None; body := Some (form_json formData) |}
      db in
  let data := Some (response_json response) in
  if negb (response_ok response)
  then
    let message :=
      match property data "error" with
      | Some (JStr msg) => if Text.is_empty msg then "Failed to start agent" else msg
      | Some v => if Js.truthy (Some v) then to_string v else "Failed to start agent"
      | None => "Failed to start agent"
      end in
    ({| isLoading := false; error := Some message; closed := false; pushed := None |},
     db')
  else
    let agent_run_id := property (property data "data") "agent_run_id" in
    ({| isLoading := false; error := None; closed := true;
        pushed := Some ("/?agent_run_id="
                        +:+ match agent_run_id with
                            | Some v => to_string v
                            | None => "undefined"
                            end) |},
     db').

End RunAgentModal.

(** ** The filters of the emails page *)

Module EmailFilters.

(** [URLSearchParams.delete] *)
Definition sp_delete (key : string) (sp : list (string * string))
    : list (string * string) :=
  List.filter (λ kv, negb (bool_decide (kv.1 = key))) sp.

(** [URLSearchParams.set]: the first entry of the key takes the value and
    the later ones go; a new key is appended. *)
Fixpoint sp_set (key value : string) (sp : list (string * string))
    : list (string * string) :=
  match sp with
  | [] => [(key, value)]
  | (k, v) :: rest =>
      if bool_decide (k = key) then (key, value) :: sp_delete key rest
      else (k, v) :: sp_set key value rest
  end.

(** [key in params] *)
Definition has_key (key : string) (params : list (string * string)) : bool :=
  bool_decide (key ∈ params.*1).

Definition truthy (v : option string) : option string :=
  match v with
  | Some s => if Text.is_empty s then None else Some s
  | None => None
  end.

(** Where [router.push] goes: the path, and the query when there is one. *)
Record Url : Type := {
  url_path : string;
  url_query : list (string * string)
}.

(** [updateFilters(params)], [params] being the entries of the object in
    their order. *)
Definition updateFilters (pathname : string)
    (currentStatus currentAgentRunId : option string)
    (params : list (string * string)) : Url :=
  let sp0 : list (string * string) := [] in
  let sp1 :=
    match truthy currentStatus with
    | Some s => if has_key "status" params then sp0 else sp_set "status" s sp0
    | None => sp0
    end in
  let sp2 :=
    match truthy currentAgentRunId with
    | Some r => if has_key "agent_run_id" params then sp1
                else sp_set "agent_run_id" r sp1
    | None => sp1
    end in
  let sp3 :=
    fold_left (λ sp kv, if Text.is_empty kv.2 then sp_delete kv.1 sp
                        else sp_set kv.1 kv.2 sp) params sp2 in
  {| url_path := pathname; url_query := sp3 |}.

Definition handleStatusChange (pathname : string)
    (currentStatus currentAgentRunId : option string) (status : string) : Url :=
  updateFilters pathname currentStatus currentAgentRunId [("status", status)].

Definition handleAgentRunChange (pathname : string)
    (currentStatus currentAgentRunId : option string) (agentRunId : string) : Url :=
  updateFilters pathname currentStatus currentAgentRunId [("agent_run_id", agentRunId)].

(** [searchParams.key] as the emails page reads it from the query. *)
Definition page_param (key : string) (query : list (string * string)) : option string :=
  snd <$> List.find (λ kv, bool_decide (kv.1 = key)) query.

End EmailFilters.

(** ** The sign-up route *)

Module SignupApi.

Record ProfileRow : Type := {
  profile_email : option Json;
  profile_full_name : option Json;
  profile_company : option Json;
  profile_role : option Json
}.

(** What [supabase.auth.signUp] answers: an error with its message, a user
    with its id, or neither. *)
Inductive SignUpAnswer : Type :=
  | AuthError (message : string)
  | AuthUser (id : string)
  | NoUser.

(** The authentication service and the failures of the profiles table. *)
Record Services : Type := {
  signUp : option Json → option Json → option Json → SignUpAnswer;
  insert_profile_fails : string → ProfileRow → bool
}.

(** The profiles table by its primary key, and the sign-ups asked of the
    authentication service, each with its email and password. *)
Record State : Type := {
  profiles : gmap string ProfileRow;
  sign_ups : list (option Json * option Json)
}.

Definition POST (sv : Services) (req : Request) (st : State) : Reply string * State :=
  match body req ≫= Js.destructure with
  | None => (reply_error "An unexpected error occurred" 500, st)
  | Some field =>
      let email := field "email" in
      let password := field "password" in
      let full_name := field "full_name" in
      let company := field "company" in
      let role := field "role" in
      if negb (Js.truthy email) || negb (Js.truthy password)
      then (reply_error "Email and password are required" 400, st)
      else
        let st1 := {| profiles := profiles st;
                      sign_ups := sign_ups st ++ [(email, password)] |} in
        match signUp sv email password full_name with
        | AuthError message => (reply_error message 400, st1)
        | AuthUser id =>
            let profile := {| profile_email := email;
                              profile_full_name := full_name;
                              profile_company := company;
                              profile_role := role |} in
            if insert_profile_fails sv id profile
               || bool_decide (is_Some (profiles st !! id))
            then (reply_error
                    "Account created, but there was an issue setting up your profile."
                    500, st1)
            else (reply_ok id,
                  {| profiles := <[id := profile]> (profiles st);
                     sign_ups := sign_ups st1 |})
        | NoUser => (reply_error "Failed to create user account" 500, st1)
        end
  end.

End SignupApi.

(** ** More sample data *)

Module Fixtures.

Definition empty_disk : ConfigFile.FileSystem :=
  {| ConfigFile.files := ∅; ConfigFile.writable := true |}.

Definition args : ConfigFile.Args :=
  {| ConfigFile.arg_config := "config.json"; ConfigFile.arg_mode := "auto" |}.

Definition environ_three_keys : gmap string string :=
  {[ "OPENAI_API_KEY" := "sk-test";
     "GMAIL_CREDENTIALS" := "credentials.json";
     "AIRTABLE_API_KEY" := "at-test" ]}.

Definition environ_gemini_only : gmap string string :=
  {[ "GEMINI_API_KEY" := "g-test"; "LLM_PROVIDER" := "gemini" ]}.

(** A hand-written configuration with no crm entry. *)
Definition config_without_crm : gmap string Json :=
  {[ "lead_source" := JStr "csv"; "email_provider" := JStr "mailersend" ]}.

(** The row the leads route stores for [Samples.full_lead]. *)
Definition grace_row : Supabase.LeadRow :=
  {| Supabase.lead_user_id := "ada";
     Supabase.lead_agent_run_id := Some (JStr "run-1");
     Supabase.lead_full_name := Some (JStr "Grace Hopper");
     Supabase.lead_email := Some (JStr "grace@example.com");
     Supabase.lead_company := Some (JStr "Navy");
     Supabase.lead_title := Some (JStr "Rear Admiral");
     Supabase.lead_linkedin_url := None;
     Supabase.lead_website_url := None;
     Supabase.lead_notes := None |}.

Definition draft : EmailsApi.EmailRow :=
  {| EmailsApi.email_user_id := "ada";
     EmailsApi.email_lead_id := JStr "lead-1";
     EmailsApi.email_subject := JStr "Hello";
     EmailsApi.email_body := JStr "A word about engines.";
     EmailsApi.email_status := JStr "draft";
     EmailsApi.sent_at := None;
     EmailsApi.opened_at := None;
     EmailsApi.replied_at := None |}.

Definition tables : EmailsApi.Tables :=
  {| EmailsApi.lead_owner := {[ "lead-1" := "ada" ]};
     EmailsApi.emails := {[ "email-1" := draft ]} |}.

Definition backend : EmailsApi.Backend :=
  {| EmailsApi.now := "2025-06-01T09:00:00.000Z";
     EmailsApi.new_id := "email-2";
     EmailsApi.update_fails := λ _ _, false;
     EmailsApi.insert_fails := λ _, false |}.

(** The request the Send button of the emails table makes for email-1. *)
Definition send_request : Request :=
  {| session := Some "ada"; search := λ _, None;
     body := Some (EmailsApi.fetch_body (EmailsApi.handleAction "email-1" "send")) |}.

Definition chat_row (user run role text : string) : ChatApi.ChatRow :=
  {| ChatApi.chat_user_id := user;
     ChatApi.chat_agent_run_id := Some (JStr run);
     ChatApi.chat_role := role;
     ChatApi.chat_content := JStr text |}.

(** Two users, each with a run and messages. *)
Definition chat_db : ChatApi.ChatDb :=
  {| ChatApi.runs :=
       [ {| Supabase.run_id := "run-1"; Supabase.run_user_id := "ada" |};
         {| Supabase.run_id := "run-2"; Supabase.run_user_id := "bob" |} ];
     ChatApi.chat_messages :=
       [ chat_row "ada" "run-1" "user" "Find founders";
         chat_row "bob" "run-2" "user" "Find bankers";
         chat_row "ada" "run-1" "assistant" ChatApi.canned_reply ] |}.

Definition chat_faults : ChatApi.ChatFaults :=
  {| ChatApi.select_messages_fails := false;
     ChatApi.insert_message_fails := λ _, false |}.

(** An edit of email-1 that carries an empty subject and a new body. *)
Definition blank_subject_edit : Request :=
  {| session := Some "ada"; search := λ _, None;
     body := Some (JObj [("id", JStr "email-1"); ("subject", JStr "");
                         ("body", JStr "A word about engines, revised.")]) |}.

(** A new draft for lead-1. *)
Definition new_draft : Request :=
  {| session := Some "ada"; search := λ _, None;
     body := Some (JObj [("lead_id", JStr "lead-1"); ("subject", JStr "Following up");
                         ("body", JStr "Did you see my note?")]) |}.

Definition ada_reads : Request :=
  {| session := Some "ada"; search := λ _, None; body := None |}.

End Fixtures.


(** * Properties *)

(** ** Memory store *)

Section memory_store.
Import Py MemoryStore.
Implicit Types (k : string) (v default : Value) (j : Json) (st : Store).

(** [remember] puts the value in [_memory_store] before it touches the
    file, whatever happens next. *)
Lemma remember_cached k v st :
  _memory_store (remember (KStr k) v st).2 = <[k := v]> (_memory_store st).
Proof.
  unfold remember.
  destruct (next_fault st); destruct (memory_json st); reflexivity.
Qed.

(** [remember] succeeds exactly when no fault is ahead and the file, if
    it parses, holds an object; the file then holds the entries it had (none
    when it was missing or unreadable) and the new one. *)
Lemma remember_ok_iff k v st :
  stored_ok (remember (KStr k) v st).1 = true
  ↔ next_fault st = NoFault ∧ ∀ complaint, memory_json st ≠ NotADict complaint.
Proof.
  unfold remember.
  destruct (next_fault st); destruct (memory_json st); simpl;
    split; try done; try (by intros [? ?]);
    try (intros [_ H]; by destruct (H complaint)).
Qed.

Lemma remember_ok_file k v st :
  stored_ok (remember (KStr k) v st).1 = true →
  (remember (KStr k) v st).1 = StoredOk (KStr k) v
  ∧ ∃ entries, memory_json (remember (KStr k) v st).2
               = Mapping (<[k := dumped v]> entries).
Proof.
  unfold remember.
  destruct (next_fault st); destruct (memory_json st); simpl; try done;
    intros _; (split; [done|]); by eexists.
Qed.

(** A failed [remember] still leaves the value in [_memory_store]; the
    file is as it was unless [json.dump] raised on the emptied file. *)
Lemma remember_failed k v st :
  stored_ok (remember (KStr k) v st).1 = false →
  _memory_store (remember (KStr k) v st).2 !! k = Some v
  ∧ (memory_json (remember (KStr k) v st).2 = memory_json st
     ∨ memory_json (remember (KStr k) v st).2 = Unreadable).
Proof.
  intros Hfailed. rewrite remember_cached, lookup_insert_eq. split; [done|].
  revert Hfailed. unfold remember.
  destruct (next_fault st); destruct (memory_json st); simpl; auto; done.
Qed.

(** [clear_memory] empties [_memory_store] whatever happens to the file,
    and writes the file only when there is one. *)
Lemma clear_memory_cache st : _memory_store (clear_memory st).2 = ∅.
Proof.
  unfold clear_memory. destruct (memory_json st); try done;
    by destruct (next_fault st).
Qed.

Lemma on_disk_Some k j st :
  on_disk k (memory_json st) = Some j
  ↔ ∃ entries, memory_json st = Mapping entries ∧ entries !! k = Some j.
Proof.
  unfold on_disk. destruct (memory_json st); split; try done;
    try (by intros (? & ? & ?)).
  - intros ?. by eexists.
  - intros (? & [= <-] & ?). done.
Qed.

(** C4: a successful [remember(k, v)] of a value JSON can hold, followed in
    a new process (empty [_memory_store]) by [recall(k)], gives back [v]
    with source "disk", whatever default is passed; the value is then in
    [_memory_store] again. *)
Theorem remember_recall_after_restart k j default st :
  stored_ok (remember (KStr k) (Data j) st).1 = true →
  let st' := (remember (KStr k) (Data j) st).2 in
  (recall (KStr k) default (restart st')).1 = Retrieved (KStr k) (Data j) Disk
  ∧ source_name Disk = "disk"
  ∧ _memory_store (recall (KStr k) default (restart st')).2 !! k = Some (Data j)
  ∧ memory_json (recall (KStr k) default (restart st')).2 = memory_json st'.
Proof.
  intros Hok st'. destruct (remember_ok_file _ _ _ Hok) as (_ & entries & Hfile).
  fold st' in Hfile. unfold recall, restart. simpl.
  rewrite lookup_empty, Hfile. simpl. rewrite lookup_insert_eq. simpl.
  by rewrite lookup_insert_eq.
Qed.

Lemma remember_recall_after_restart_witness :
  (recall (KStr "leads_count") none
     (restart (remember (KStr "leads_count") (Data (JInt 5)) Samples.empty_store).2)).1
  = Retrieved (KStr "leads_count") (Data (JInt 5)) Disk.
Proof.
  apply (remember_recall_after_restart "leads_count" (JInt 5) none Samples.empty_store).
  reflexivity.
Defined.

(** An object JSON cannot hold comes back as its text: the round trip of
    C4 is for JSON values. *)
Example remember_object_after_restart :
  (recall (KStr "when") none
     (restart (remember (KStr "when") (Object "2025-06-01") Samples.empty_store).2)).1
  = Retrieved (KStr "when") (text "2025-06-01") Disk.
Proof. reflexivity. Qed.

(** A write that fails after [open] has emptied the file loses what the
    file held; the value just given is in [_memory_store] only. *)
Example remember_dump_fails :
  let st := {| _memory_store := ∅;
               memory_json := Mapping {[ "tone" := JStr "formal" ]};
               faults := [DumpFails "No space left on device"] |} in
  remember (KStr "leads_count") (Data (JInt 5)) st
  = (StoreFailed "Failed to store value: No space left on device",
     {| _memory_store := {[ "leads_count" := Data (JInt 5) ]};
        memory_json := Unreadable; faults := [] |})
  ∧ (recall (KStr "tone") none (restart (remember (KStr "leads_count") (Data (JInt 5)) st).2)).1
    = RecallFailed "Key not found: tone".
Proof. split; reflexivity. Qed.

(** C5: [recall] answers from [_memory_store] first, then from the file
    (putting the value in [_memory_store]), then with the default; it
    fails, with "Key not found", exactly when the key is in neither and the
    default is [None], and never when a default is given. *)
Theorem recall_resolution_order k default st :
  let out := recall (KStr k) default st in
  (∀ v, _memory_store st !! k = Some v →
        out = (Retrieved (KStr k) v Memory, st))
  ∧ (∀ entries j,
        _memory_store st !! k = None →
        memory_json st = Mapping entries → entries !! k = Some j →
        out.1 = Retrieved (KStr k) (Data j) Disk
        ∧ _memory_store out.2 = <[k := Data j]> (_memory_store st)
        ∧ memory_json out.2 = memory_json st)
  ∧ (_memory_store st !! k = None → on_disk k (memory_json st) = None →
        is_none default = false →
        out = (Retrieved (KStr k) default Default, st))
  ∧ (recalled_ok out.1 = false
       ↔ _memory_store st !! k = None ∧ on_disk k (memory_json st) = None
         ∧ is_none default = true)
  ∧ (recalled_ok out.1 = false →
        out = (RecallFailed ("Key not found: " +:+ k), st))
  ∧ (is_none default = false → recalled_ok out.1 = true)
  ∧ (source_name Memory = "memory" ∧ source_name Disk = "disk"
     ∧ source_name Default = "default").
Proof.
  intros out. subst out. unfold recall.
  destruct (_memory_store st !! k) as [vc|] eqn:Hc.
  { repeat split; intros; simplify_eq; try done. by destruct_and?. }
  destruct (on_disk k (memory_json st)) as [jd|] eqn:Hd.
  { repeat split; intros; simplify_eq; try done; try (by destruct_and?).
    all: try match goal with
             | H : memory_json _ = Mapping _ |- _ =>
                 rewrite H in Hd; simpl in Hd; by simplify_eq
             end. }
  destruct (is_none default) eqn:Hn;
    repeat split; intros; simplify_eq; try done.
  all: try match goal with
           | H : memory_json _ = Mapping _ |- _ =>
               rewrite H in Hd; simpl in Hd; by simplify_eq
           end.
  all: by destruct_and?.
Qed.

(** An unreadable memory file counts as a miss; a key Python cannot hash
    is the one case that ends in the other failure. *)
Example recall_unreadable_file :
  recall (KStr "tone") (text "formal")
    {| _memory_store := ∅; memory_json := Unreadable; faults := [] |}
  = (Retrieved (KStr "tone") (text "formal") Default,
     {| _memory_store := ∅; memory_json := Unreadable; faults := [] |})
  ∧ (recall (KUnhashable "unhashable type: 'list'") (text "formal")
       Samples.empty_store).1
    = RecallFailed "Failed to retrieve value: unhashable type: 'list'".
Proof. split; reflexivity. Qed.

End memory_store.

(** ** Interaction gate *)

Section interaction_gate.
Import Py MemoryStore InteractionGate.
Implicit Types (bi : Builtins) (st : Store) (c : Console)
  (required_inputs : list (string * InputProps)).

Lemma taken_from_hit (memory resolved : gmap string Value) input_name properties v :
  memory !! input_name = Some v →
  taken_from memory resolved (input_name, properties) = <[input_name := v]> resolved.
Proof. intros Hv. unfold taken_from. simpl. by rewrite Hv. Qed.

(** [recall] never drops an entry of [_memory_store]. *)
Lemma recall_keeps_memory k default st :
  _memory_store st ⊆ _memory_store (recall (KStr k) default st).2.
Proof.
  unfold recall. destruct (_memory_store st !! k) eqn:Hc; [done|].
  destruct (on_disk k (memory_json st)); [|by destruct (is_none default)].
  simpl. by apply insert_subseteq.
Qed.

Lemma recall_failed_memory k default st message st1 :
  recall (KStr k) default st = (RecallFailed message, st1) →
  st1 = st ∧ _memory_store st !! k = None.
Proof.
  unfold recall. destruct (_memory_store st !! k) eqn:Hc; [done|].
  destruct (on_disk k (memory_json st)); [done|].
  destruct (is_none default); by intros [= _ <-].
Qed.

Lemma recall_retrieved_memory k default st key v source st1 :
  recall (KStr k) default st = (Retrieved key v source, st1) →
  is_none default = true →
  _memory_store st1 !! k = Some v.
Proof.
  unfold recall. destruct (_memory_store st !! k) eqn:Hc.
  { intros [= _ <- _ <-]. done. }
  destruct (on_disk k (memory_json st)).
  { intros [= _ <- _ <-] _. simpl. apply lookup_insert_eq. }
  intros Hr Hn. rewrite Hn in Hr. done.
Qed.

Lemma resolve_cons bi input_name properties rest resolved st c :
  resolve bi ((input_name, properties) :: rest) resolved st c
  = match recall (KStr input_name) none st with
    | (Retrieved _ value _, st1) =>
        resolve bi rest (<[input_name := value]> resolved) st1 c
    | (RecallFailed _, st1) =>
        match get_user_input bi
                (default ("Please enter " +:+ input_name) (p_prompt properties))
                (p_default properties) (p_options properties) c with
        | Err e => Err e
        | Ok (value, c1) =>
            match convert bi (p_type properties) value with
            | Err e => Err e
            | Ok value =>
                resolve bi rest (<[input_name := value]> resolved)
                  (remember (KStr input_name) value st1).2 c1
            end
        end
    end.
Proof. reflexivity. Qed.

(** A pass that returns leaves every named input in [_memory_store], drops
    no entry it had, and returns what [_memory_store] holds. *)
Lemma resolve_caches bi required_inputs : ∀ resolved st c inputs st' c',
  resolve bi required_inputs resolved st c = Ok (inputs, st', c') →
  _memory_store st ⊆ _memory_store st'
  ∧ Forall (λ entry, is_Some (_memory_store st' !! entry.1)) required_inputs
  ∧ inputs = fold_left (taken_from (_memory_store st')) required_inputs resolved.
Proof.
  induction required_inputs as [|[input_name properties] rest IH];
    intros resolved st c inputs st' c' Hrun.
  - simpl in Hrun. by simplify_eq.
  - rewrite resolve_cons in Hrun.
    pose proof (recall_keeps_memory input_name none st) as Hkeep.
    destruct (recall (KStr input_name) none st) as [[key v source|message] st1] eqn:Hr.
    + apply recall_retrieved_memory in Hr; [|done].
      apply IH in Hrun as (Hsub & Hall & ->). simpl in Hkeep.
      pose proof (lookup_weaken _ _ _ _ Hr Hsub) as Hv.
      split; [by etrans|]. split.
      * constructor; [simpl; by rewrite Hv|done].
      * simpl. by rewrite (taken_from_hit _ _ _ properties _ Hv).
    + apply recall_failed_memory in Hr as [-> Hmiss].
      destruct (get_user_input _ _ _ _ c) as [[value c1]|]; [|done].
      destruct (convert bi (p_type properties) value) as [value'|]; [|done].
      pose proof (remember_cached input_name value' st) as Hrc.
      apply IH in Hrun as (Hsub & Hall & ->).
      assert (_memory_store st' !! input_name = Some value') as Hv.
      { eapply lookup_weaken; [|exact Hsub]. rewrite Hrc. apply lookup_insert_eq. }
      split; [|split].
      * etrans; [|exact Hsub]. rewrite Hrc. by apply insert_subseteq.
      * constructor; [simpl; by rewrite Hv|done].
      * simpl. by rewrite (taken_from_hit _ _ _ properties _ Hv).
Qed.

(** A pass over inputs that are all in [_memory_store] asks nothing and
    changes nothing. *)
Lemma resolve_cached bi required_inputs : ∀ resolved st c,
  Forall (λ entry, is_Some (_memory_store st !! entry.1)) required_inputs →
  resolve bi required_inputs resolved st c
  = Ok (fold_left (taken_from (_memory_store st)) required_inputs resolved, st, c).
Proof.
  induction required_inputs as [|[input_name properties] rest IH];
    intros resolved st c Hall; [done|].
  apply Forall_cons in Hall as [[v Hv] Hall]. simpl in Hv.
  rewrite resolve_cons. unfold recall. rewrite Hv.
  rewrite IH by done. simpl. by rewrite (taken_from_hit _ _ _ properties _ Hv).
Qed.

(** C3: after a call of [ensure_required_inputs] has returned, a second
    call with the same argument in the same process displays no prompt and
    reads no line (the terminal is left as it was found), leaves memory and
    file as they were, and returns the same dictionary. *)
Theorem ensure_required_inputs_idempotent bi required_inputs st c inputs st' c' :
  ensure_required_inputs bi required_inputs st c = Ok (inputs, st', c') →
  ∀ c2, ensure_required_inputs bi required_inputs st' c2 = Ok (inputs, st', c2).
Proof.
  unfold ensure_required_inputs. intros Hrun c2.
  apply resolve_caches in Hrun as (_ & Hall & ->).
  by apply resolve_cached.
Qed.

(** The first call asks for both inputs (twice for the tone, "loud" being
    no option), converts and remembers the answers; the second reads
    nothing. *)
Lemma ensure_required_inputs_idempotent_witness :
  ensure_required_inputs Samples.builtins Samples.inputs Samples.empty_store
    Samples.operator
  = Ok (Samples.answered, Samples.answered_store, Samples.operator_after)
  ∧ ensure_required_inputs Samples.builtins Samples.inputs Samples.answered_store
      (Samples.terminal ["not read"])
    = Ok (Samples.answered, Samples.answered_store, Samples.terminal ["not read"]).
Proof.
  assert (ensure_required_inputs Samples.builtins Samples.inputs Samples.empty_store
            Samples.operator
          = Ok (Samples.answered, Samples.answered_store, Samples.operator_after))
    as Hfirst by (vm_compute; reflexivity).
  split; [exact Hfirst|].
  exact (ensure_required_inputs_idempotent Samples.builtins Samples.inputs
           Samples.empty_store Samples.operator
           Samples.answered Samples.answered_store Samples.operator_after
           Hfirst (Samples.terminal ["not read"])).
Defined.

(** The second call is served from [_memory_store] also when nothing
    reached the file. *)
Example ensure_required_inputs_without_disk :
  let st := {| _memory_store := ∅; memory_json := Absent;
               faults := [OpenFails "Permission denied"; OpenFails "Permission denied"] |} in
  ∃ st', ensure_required_inputs Samples.builtins Samples.inputs st Samples.operator
         = Ok (Samples.answered, st', Samples.operator_after)
         ∧ memory_json st' = Absent
         ∧ ensure_required_inputs Samples.builtins Samples.inputs st'
             (Samples.terminal [])
           = Ok (Samples.answered, st', Samples.terminal []).
Proof. eexists. split; [vm_compute; reflexivity|]. split; [done|]. vm_compute. reflexivity. Qed.

(** One round of [get_user_input] with no default and no options: the line
    is read, stripped and returned. *)
Lemma get_user_input_plain bi prompt line rest shown :
  get_user_input bi prompt none [] {| pending := line :: rest; asked := shown |}
  = Ok (text (Text.py_strip line),
        {| pending := rest; asked := shown ++ [prompt +:+ ": "] |}).
Proof.
  unfold get_user_input. simpl. by rewrite andb_false_r.
Qed.

(** C8 (amended): [confirm_action] reads one line and answers [default]
    when the line is empty once stripped (the empty line, or white space
    only); to any other line it answers true exactly when the line,
    stripped and lowercased, is one of y, yes, true, 1.  With default true
    the empty line gives true and the line n gives false. *)
Theorem confirm_action_answer bi description (default : bool) line rest shown :
  ∃ answer,
    confirm_action bi description default {| pending := line :: rest; asked := shown |}
    = Ok (answer,
          {| pending := rest;
             asked := shown ++ [("Do you want to " +:+ description +:+ "? "
                                 +:+ (if default then "Y/n" else "y/N")) +:+ ": "] |})
    ∧ (Text.py_strip line = "" → answer = default)
    ∧ (Text.py_strip line ≠ "" →
       (answer = true ↔ Text.lower (Text.py_strip line) ∈ ["y"; "yes"; "true"; "1"]))
    ∧ (line = "" → answer = default)
    ∧ (line = "n" → answer = false)
    ∧ (line ∈ ["y"; "Y"; " yes"; "YES "; "True"; "  1  "] → answer = true)
    ∧ (line ∈ ["no"; "0"; "yes please"; "y e s"] → answer = false).
Proof.
  unfold confirm_action. rewrite get_user_input_plain.
  unfold truthy, text.
  destruct (Text.py_strip line) as [|a r] eqn:Hs; simpl.
  - eexists. split; [reflexivity|]. split; [done|]. split; [done|].
    split; [done|].
    split; [intros ->; vm_compute in Hs; discriminate|].
    split; intros Hin; exfalso;
      repeat (apply elem_of_cons in Hin as [->|Hin]; [vm_compute in Hs; discriminate|]);
      by apply elem_of_nil in Hin.
  - eexists. split; [reflexivity|]. split; [done|]. split.
    { intros _. unfold Text.mem. apply bool_decide_eq_true. }
    split; [intros ->; vm_compute in Hs; discriminate|].
    split; [intros ->; vm_compute in Hs; injection Hs as <- <-; reflexivity|].
    split; intros Hin;
      repeat (apply elem_of_cons in Hin as [->|Hin];
              [vm_compute in Hs; injection Hs as <- <-; vm_compute; reflexivity|]);
      by apply elem_of_nil in Hin.
Qed.

Lemma confirm_action_answer_witness :
  ∃ answer,
    confirm_action Samples.builtins "send these emails" false
      (Samples.terminal ["  Yes"; "later"])
    = Ok (answer,
          {| pending := ["later"];
             asked := ["Do you want to send these emails? y/N: "] |})
    ∧ answer = true.
Proof.
  destruct (confirm_action_answer Samples.builtins "send these emails" false
              "  Yes" ["later"] [])
    as (answer & Hrun & _ & Hword & _).
  exists answer. split; [exact Hrun|].
  apply Hword; [vm_compute; discriminate|].
  vm_compute. apply list_elem_of_further, list_elem_of_here.
Defined.

(** C8, as stated, fails: a line of two spaces is not empty and, stripped
    and lowercased, is none of y, yes, true, 1; with default true the
    answer is true all the same. *)
Lemma confirm_action_blank_line :
  ("  " ≠ "")
  ∧ (Text.lower (Text.py_strip "  ") ∉ ["y"; "yes"; "true"; "1"])
  ∧ confirm_action Samples.builtins "x" true (Samples.terminal ["  "])
    = Ok (true, {| pending := []; asked := ["Do you want to x? Y/n: "] |}).
Proof.
  split; [done|]. split; [|reflexivity].
  vm_compute. intros Hin.
  repeat (apply elem_of_cons in Hin as [Hin|Hin]; [discriminate|]).
  by apply elem_of_nil in Hin.
Qed.

End interaction_gate.


(** ** The leads and agent-run endpoints *)

Section endpoints.
Import Supabase.

Lemma truthy_string (s : string) : Js.truthy (Some (JStr s)) = true ↔ s ≠ "".
Proof. simpl. by destruct s. Qed.

Lemma truthy_undefined : Js.truthy None = false ∧ Js.truthy (Some JNull) = false.
Proof. done. Qed.

Lemma leads_post_outcomes faults req db :
  LeadsApi.leads_post_outcome req db (LeadsApi.POST faults req db).
Proof.
  unfold LeadsApi.POST.
  destruct (session req) as [user|] eqn:Hs; [|by constructor].
  destruct (body req ≫= Js.destructure) as [field|]; [|by constructor].
  destruct (Js.truthy (field "agent_run_id")) eqn:H1; simpl; [|by constructor].
  destruct (Js.truthy (field "full_name")) eqn:H2; simpl; [|by constructor].
  destruct (Js.truthy (field "email")) eqn:H3; simpl; [|by constructor].
  destruct (Js.truthy (field "company")) eqn:H4; simpl; [|by constructor].
  destruct (Js.truthy (field "title")) eqn:H5; simpl; [|by constructor].
  destruct (single _); [|by constructor].
  destruct (insert_lead_fails faults _); [by constructor|].
  apply LeadsApi.post_created. unfold LeadsApi.lead_ok. simpl.
  by rewrite H1, H2, H3, H4, H5.
Qed.

Lemma filter_subset {A} (f : A → bool) (l : list A) (x : A) :
  x ∈ List.filter f l → x ∈ l.
Proof. rewrite !list_elem_of_In, filter_In. tauto. Qed.

Lemma leads_get_rows faults req db r :
  r ∈ LeadsApi.returned_leads (LeadsApi.GET faults req db).1 → r ∈ leads db.
Proof.
  unfold LeadsApi.GET.
  destruct (session req) as [user|]; simpl; [|by intros ?%elem_of_nil].
  destruct (select_leads_fails faults); simpl; [by intros ?%elem_of_nil|].
  destruct (search req "agent_run_id") as [id|]; [destruct (Text.is_empty id)|];
    intros Hr; repeat apply filter_subset in Hr; done.
Qed.

(** C9 (amended): a lead stored by [POST] of the leads route has a value in
    agent_run_id, full_name, email, company and title (for a string: a
    non-empty one), so the leads of a store filled through the route, and
    the leads the route returns, all have them; the optional fields may be
    absent.  A signed-in request whose lead misses one of the five is
    answered 400 and stores nothing; a request with no session is answered
    401 before its lead is looked at, and stores nothing either.  (The
    leads [get_leads] returns are not covered: the adapters test no
    field.) *)
Theorem leads_route_required_fields faults req db :
  let out := LeadsApi.POST faults req db in
  (leads out.2 = leads db
   ∨ ∃ row, leads out.2 = leads db ++ [row]
            ∧ out.1 = json_ok (LeadCreated row)
            ∧ LeadsApi.lead_ok row = true)
  ∧ (Forall (λ r, LeadsApi.lead_ok r = true) (leads db) →
     Forall (λ r, LeadsApi.lead_ok r = true) (leads out.2)
     ∧ Forall (λ r, LeadsApi.lead_ok r = true) (LeadsApi.returned_leads out.1)
     ∧ Forall (λ r, LeadsApi.lead_ok r = true)
         (LeadsApi.returned_leads (LeadsApi.GET faults req db).1))
  ∧ (∀ r, LeadsApi.lead_ok r = true →
       (∀ s, lead_full_name r = Some (JStr s) → s ≠ "")
       ∧ (∀ s, lead_title r = Some (JStr s) → s ≠ "")
       ∧ (∀ s, lead_company r = Some (JStr s) → s ≠ "")
       ∧ (∀ s, lead_email r = Some (JStr s) → s ≠ "")
       ∧ is_Some (lead_full_name r) ∧ is_Some (lead_title r)
       ∧ is_Some (lead_company r) ∧ is_Some (lead_email r))
  ∧ (∀ fields,
       is_Some (session req) →
       body req = Some (JObj fields) →
       Exists (λ k, Js.truthy (Js.obj_get k fields) = false) LeadsApi.required_fields →
       out = (json_error "Missing required fields" 400, db))
  ∧ (session req = None → out = (json_error "Unauthorized" 401, db)).
Proof.
  intros out. subst out.
  pose proof (leads_post_outcomes faults req db) as Hout.
  split; [|split; [|split; [|split]]].
  - inversion Hout; simpl; eauto.
  - intros Hdb. split; [|split].
    + inversion Hout; simpl; try done.
      apply Forall_app. split; [done|]. by constructor.
    + inversion Hout; simpl; try done. by constructor.
    + apply Forall_forall. intros r Hr%leads_get_rows.
      by eapply Forall_forall in Hdb.
  - intros r Hok. unfold LeadsApi.lead_ok in Hok.
    repeat (apply andb_prop in Hok as [Hok ?]).
    repeat split; try (intros s Hs; rewrite Hs in *; by apply truthy_string);
      by match goal with
         | H : Js.truthy ?f = true |- is_Some ?f => destruct f; [eauto|discriminate H]
         end.
  - intros fields [user Hs] Hb Hmiss. unfold LeadsApi.POST.
    rewrite Hs, Hb. simpl. unfold LeadsApi.required_fields in Hmiss.
    repeat (apply Exists_cons in Hmiss as [Hmiss|Hmiss]);
      try (by apply Exists_nil in Hmiss);
      rewrite Hmiss; simpl; by rewrite ?orb_true_r.
  - intros Hs. unfold LeadsApi.POST. by rewrite Hs.
Qed.

(** C9, as stated, fails.  A lead [get_leads] returns need not have a name,
    a title, a company or an email: Apollo answering a person with none of
    these, the lead returned has them all empty.  And an incomplete lead
    sent to the leads route without a session is answered 401, not 400. *)
Lemma returned_lead_may_be_blank :
  (∃ lead w',
     LeadAcquisition.get_leads Samples.builtins Samples.live
       (Samples.providers_apollo [Samples.blank_person])
       "AI SaaS" "Founder" "Berlin" (Some 1) Samples.fresh_world
     = Ok (LeadAcquisition.LeadsOk 1 [lead], w')
     ∧ LeadAcquisition.l_name lead = "" ∧ LeadAcquisition.l_title lead = ""
     ∧ LeadAcquisition.l_company lead = "" ∧ LeadAcquisition.l_email lead = "")
  ∧ Js.truthy (Js.obj_get "full_name" Samples.nameless_lead) = false
  ∧ LeadsApi.POST Samples.no_faults
      (Samples.request None (JObj Samples.nameless_lead)) Samples.db
    = (json_error "Unauthorized" 401, Samples.db).
Proof.
  split; [|by split].
  eexists _, _. split; [vm_compute; reflexivity|]. by repeat split.
Qed.

Lemma leads_route_required_fields_witness :
  LeadsApi.POST Samples.no_faults
    (Samples.request (Some "ada") (JObj Samples.nameless_lead)) Samples.db
  = (json_error "Missing required fields" 400, Samples.db).
Proof.
  destruct (leads_route_required_fields Samples.no_faults
              (Samples.request (Some "ada") (JObj Samples.nameless_lead)) Samples.db)
    as (_ & _ & _ & Hmissing & _).
  apply (Hmissing Samples.nameless_lead).
  - by eexists.
  - reflexivity.
  - apply Exists_cons_tl, Exists_cons_hd. reflexivity.
Defined.

(** The complete lead is stored. *)
Example leads_post_full_lead :
  ∃ row, LeadsApi.POST Samples.no_faults
           (Samples.request (Some "ada") (JObj Samples.full_lead)) Samples.db
         = (json_ok (LeadCreated row),
            {| agent_runs := agent_runs Samples.db; leads := [row];
               agents := []; tasks := [] |})
         ∧ lead_full_name row = Some (JStr "Grace Hopper").
Proof. eexists. split; reflexivity. Qed.

(** C10: a run created by [POST] of the agent-run route is stored with
    status active, which is none of the statuses the schema type declares
    for the agents table (pending, running, completed, failed); the status
    bar shows it through its catch-all branch, "waiting to start". *)
Theorem agent_run_created_active faults req db :
  let out := AgentRunApi.POST faults req db in
  (agents out.2 = agents db ∧ status_code out.1 ≠ 200%nat)
  ∨ (∃ run, agents out.2 = agents db ++ [run]
            ∧ out.1 = json_ok (AgentStarted (agent_id run) "active")
            ∧ agent_status run = "active"
            ∧ (agent_status run ∉ declared_agent_statuses)
            ∧ AgentRunApi.getStatusText (agent_status run) = "Agent is waiting to start"
            ∧ AgentRunApi.getStatusColor (agent_status run)
              = "bg-gray-50 text-gray-800 border-gray-200"
            ∧ AgentRunApi.getStatusIcon (agent_status run) = AgentRunApi.Clock).
Proof.
  intros out. subst out. unfold AgentRunApi.POST.
  destruct (session req) as [user|]; [|by left].
  destruct (body req ≫= Js.destructure) as [field|]; [|by left].
  destruct (insert_agent_fails faults _); [by left|].
  right. eexists. simpl. split; [reflexivity|].
  repeat split. unfold declared_agent_statuses.
  rewrite !elem_of_cons, elem_of_nil. intros [?|[?|[?|[?|[]]]]]; discriminate.
Qed.

(** A run is created from the sample settings. *)
Example agent_run_post_sample :
  ∃ run, agents (AgentRunApi.POST Samples.no_faults
                   (Samples.request (Some "ada") Samples.run_settings) Samples.db).2
         = [run]
         ∧ agent_status run = "active"
         ∧ in_lead_count (agent_inputs run) = Some (JInt 5).
Proof. eexists. repeat split. Qed.

End endpoints.

(** ** The entry point *)

Section entry_point.
Import EntryPoint.

Lemma missing_keys_nil environ keys :
  missing_keys environ keys = [] ↔ Forall (λ k, unset environ k = false) keys.
Proof.
  unfold missing_keys. induction keys as [|k keys IH]; simpl.
  - split; [constructor|done].
  - destruct (unset environ k) eqn:Hk.
    + split; [done|]. intros [Hk' _]%Forall_cons. congruence.
    + rewrite IH. split; [by constructor|]. by intros [_ ?]%Forall_cons.
Qed.

(** [main] starts the planner exactly when no required key is unset. *)
Lemma main_runs_planner_iff config mode environ keys :
  required_keys config = Ok keys →
  (main config mode environ = PlannerRan mode
   ↔ Forall (λ k, unset environ k = false) keys).
Proof.
  intros Hk. unfold main. rewrite Hk, <-missing_keys_nil.
  destruct (missing_keys environ keys); split; done.
Qed.


(** The default configuration asks for the Gmail and Airtable keys, not for
    the Apollo one. *)
Example default_config_keys :
  required_keys default_config
  = Ok ["OPENAI_API_KEY"; "GMAIL_CREDENTIALS"; "AIRTABLE_API_KEY"].
Proof. vm_compute. reflexivity. Qed.


End entry_point.


(** ** Lead acquisition *)

Section lead_acquisition.
Import Py MemoryStore InteractionGate LeadAcquisition.
Implicit Types (bi : Builtins) (environ : gmap string string) (P : Providers)
  (industry role location : string) (count : Z) (w : World).

(** *** The polling loop *)


(** Polling sends requests and sleeps; it touches nothing else. *)
Lemma poll_world P run_id remaining : ∀ attempts w,
  let w' := (poll P run_id remaining attempts w).2 in
  store w' = store w ∧ console w' = console w ∧ leads_csv w' = leads_csv w
  ∧ ∃ polls, calls w' = calls w ++ replicate polls (ApifyPoll run_id).
Proof.
  induction remaining as [|remaining IH]; intros attempts w; simpl.
  { repeat split. exists 0%nat. by rewrite app_nil_r. }
  assert (∀ w1 : World, w1 = called (ApifyPoll run_id) w →
          store w1 = store w ∧ console w1 = console w ∧ leads_csv w1 = leads_csv w
          ∧ ∃ polls, calls w1 = calls w ++ replicate polls (ApifyPoll run_id)) as Hone.
  { intros w1 ->. repeat split. by exists 1%nat. }
  assert (∀ attempts',
          let w' := (poll P run_id remaining attempts'
                       (sleep 5 (called (ApifyPoll run_id) w))).2 in
          store w' = store w ∧ console w' = console w ∧ leads_csv w' = leads_csv w
          ∧ ∃ polls, calls w' = calls w ++ replicate polls (ApifyPoll run_id)) as Hmore.
  { intros attempts'. destruct (IH attempts' (sleep 5 (called (ApifyPoll run_id) w)))
      as (Hs & Hc & Hl & polls & Hcalls).
    simpl in *. repeat split; try done.
    exists (S polls). rewrite Hcalls, <-app_assoc. done. }
  destruct (apify_status P run_id attempts) as [e|status]; [by apply Hone|].
  case_bool_decide; [by apply Hone|].
  destruct status as [s|]; [|apply Hmore].
  destruct (Text.mem s _); [by apply Hone|apply Hmore].
Qed.


(** *** The adapters *)













(** *** The CSV adapter *)



(** The CSV adapter sends no request; it writes leads.csv only when the
    file is missing. *)
Lemma csv_world industry role location count w :
  let w' := (get_leads_from_csv industry role location count w).2 in
  store w' = store w ∧ console w' = console w ∧ calls w' = calls w
  ∧ slept w' = slept w.
Proof. unfold get_leads_from_csv. by destruct (leads_csv w). Qed.

(** *** [get_leads] with the count given *)

Lemma get_leads_test_mode bi environ P industry role location count w :
  test_mode environ = true →
  get_leads bi environ P industry role location (Some count) w
  = Ok (get_leads_from_csv industry role location count w).
Proof. intros Ht. unfold get_leads. by rewrite Ht. Qed.









(** C6: in test mode [get_leads] returns what the CSV adapter answers and
    sends no request and sleeps no second, whatever the providers would
    answer and whichever keys are set; this holds too when the count is
    first looked up in memory or asked for. *)
Theorem test_mode_local_only bi environ P industry role location count w :
  test_mode environ = true →
  get_leads bi environ P industry role location (Some count) w
  = Ok (get_leads_from_csv industry role location count w)
  ∧ calls (get_leads_from_csv industry role location count w).2 = calls w
  ∧ slept (get_leads_from_csv industry role location count w).2 = slept w
  ∧ (∀ P', get_leads bi environ P' industry role location (Some count) w
           = get_leads bi environ P industry role location (Some count) w)
  ∧ (∀ r w', get_leads bi environ P industry role location None w = Ok (r, w') →
             calls w' = calls w ∧ slept w' = slept w).
Proof.
  intros Ht. split; [by apply get_leads_test_mode|].
  pose proof (csv_world industry role location count w) as (_ & _ & Hc & Hs).
  split; [done|]. split; [done|]. split.
  - intros P'. by rewrite !get_leads_test_mode.
  - intros r w'. unfold get_leads. rewrite Ht.
    destruct (resolve_count bi industry role location w) as [[n w1]|e] eqn:Hr; [|done].
    intros [= Hout].
    assert (calls w1 = calls w ∧ slept w1 = slept w) as [Hc1 Hs1].
    { unfold resolve_count in Hr.
      destruct (recall (KStr "leads_count") none (store w)) as [[key v source|m] st1].
      - destruct (int v); by simplify_eq.
      - destruct (get_user_input _ _ _ _ _) as [[ci c1]|]; [|done].
        destruct (int ci) as [z|[]]; by simplify_eq. }
    pose proof (csv_world industry role location n w1) as (_ & _ & Hc2 & Hs2).
    rewrite Hout in Hc2, Hs2. simpl in *. by rewrite Hc2, Hs2.
Qed.

(** Both keys are set and Apollo would answer three people; in test mode
    nothing is sent. *)
Lemma test_mode_local_only_witness :
  ∃ leads w',
    get_leads Samples.builtins Samples.testing
      (Samples.providers_apollo Samples.contacts)
      "" "CTO" "" (Some 5) Samples.fresh_world
    = Ok (LeadsOk 3 leads, w')
    ∧ l_name <$> leads = ["Bob Johnson"; "Frank Miller"; "Jack Roberts"]
    ∧ calls w' = [].
Proof.
  destruct (test_mode_local_only Samples.builtins Samples.testing
              (Samples.providers_apollo Samples.contacts)
              "" "CTO" "" 5 Samples.fresh_world eq_refl)
    as (Hrun & Hcalls & _).
  eexists _, _. split; [rewrite Hrun; vm_compute; reflexivity|].
  split; [vm_compute; reflexivity|]. reflexivity.
Defined.




(** The empty Apollo answer has been saved all the same: leads.csv, missing
    before, now exists with its header and no row, so that the CSV adapter
    will not write the sample rows any more. *)
Example empty_answer_creates_leads_csv :
  leads_csv (get_leads_from_apollo Samples.live (Samples.providers_apollo [])
               "AI SaaS" "Founder" "Berlin" 5 Samples.fresh_world).2
  = Table []
  ∧ leads_csv (get_leads_from_apollo Samples.live Samples.providers_down
                 "AI SaaS" "Founder" "Berlin" 5 Samples.fresh_world).2
    = NoFile.
Proof. split; reflexivity. Qed.

End lead_acquisition.

(** ** A missing credential *)

Section missing_credentials.
Import EntryPoint Py LeadAcquisition.
Implicit Types (bi : Builtins) (environ : gmap string string) (P : Providers)
  (industry role location : string) (count : Z) (w : World).






End missing_credentials.

(** ** Loading the configuration *)

Section config_file.
Import EntryPoint ConfigFile.

Lemma default_fields_dict : dict_of default_fields = default_config.
Proof. vm_compute. reflexivity. Qed.


(** X2: started with no configuration file in a writable directory, the
    program writes the default configuration and starts the planner exactly
    when OPENAI_API_KEY, GMAIL_CREDENTIALS and AIRTABLE_API_KEY are all set
    to a non-empty value; APOLLO_API_KEY plays no part. *)
Theorem first_start_needs_three_keys args fs environ :
  files fs !! arg_config args = None →
  writable fs = true →
  files (start args fs environ).2 !! arg_config args
  = Some (JsonText (JObj default_fields))
  ∧ ((start args fs environ).1 = Finished (PlannerRan (arg_mode args))
     ↔ unset environ "OPENAI_API_KEY" = false
       ∧ unset environ "GMAIL_CREDENTIALS" = false
       ∧ unset environ "AIRTABLE_API_KEY" = false).
Proof.
  intros Hf Hw. unfold start, load_config, create_default_config.
  rewrite Hf, Hw. simpl. rewrite lookup_insert_eq. split; [done|].
  rewrite default_fields_dict.
  assert (required_keys default_config
          = Ok ["OPENAI_API_KEY"; "GMAIL_CREDENTIALS"; "AIRTABLE_API_KEY"]) as Hk
    by (vm_compute; reflexivity).
  split.
  - intros [= Hm]. apply (main_runs_planner_iff _ _ _ _ Hk) in Hm.
    by repeat (apply Forall_cons in Hm as [? Hm]).
  - intros (H1 & H2 & H3). f_equal.
    apply (main_runs_planner_iff _ _ _ _ Hk). by repeat constructor.
Qed.

End config_file.

Section entry_point_more.
Import EntryPoint.

Lemma first_start_needs_three_keys_witness :
  (ConfigFile.start Fixtures.args Fixtures.empty_disk Fixtures.environ_three_keys).1
  = ConfigFile.Finished (PlannerRan "auto").
Proof.
  apply (first_start_needs_three_keys Fixtures.args Fixtures.empty_disk
           Fixtures.environ_three_keys eq_refl eq_refl).
  by repeat split.
Defined.

Lemma required_keys_openai config keys :
  required_keys config = Ok keys → ∃ rest, keys = "OPENAI_API_KEY" :: rest.
Proof.
  unfold required_keys, index.
  destruct (config !! "lead_source"); [|done]. simpl.
  destruct (config !! "email_provider"); [|done]. simpl.
  destruct (config !! "crm"); [|done]. simpl.
  intros [= <-]. by eexists.
Qed.

(** X3: whatever the configuration, [main] does not start the planner while
    OPENAI_API_KEY is unset or empty (also when another LLM provider is
    the one configured in the environment). *)
Theorem openai_key_always_required config mode environ :
  unset environ "OPENAI_API_KEY" = true →
  planner_ran (main config mode environ) = false.
Proof.
  intros Hu. unfold main.
  destruct (required_keys config) as [keys|k] eqn:Hk; [|done].
  destruct (required_keys_openai _ _ Hk) as [rest ->].
  unfold missing_keys. simpl. by rewrite Hu.
Qed.

Lemma openai_key_always_required_witness :
  planner_ran (main Samples.apollo_config "auto" Fixtures.environ_gemini_only) = false.
Proof.
  apply (openai_key_always_required Samples.apollo_config "auto"
           Fixtures.environ_gemini_only).
  reflexivity.
Defined.

(** X4: [main] ends in a [KeyError] exactly when the configuration lacks
    lead_source, email_provider or crm, the key named being the first of
    the three that is missing; the environment has no say in it. *)
Theorem main_key_error config mode environ key :
  main config mode environ = KeyError key
  ↔ (key = "lead_source" ∧ config !! "lead_source" = None)
    ∨ (key = "email_provider" ∧ is_Some (config !! "lead_source")
       ∧ config !! "email_provider" = None)
    ∨ (key = "crm" ∧ is_Some (config !! "lead_source")
       ∧ is_Some (config !! "email_provider") ∧ config !! "crm" = None).
Proof.
  unfold main, required_keys, index.
  destruct (config !! "lead_source") as [ls|]; simpl;
    [destruct (config !! "email_provider") as [ep|]; simpl;
       [destruct (config !! "crm") as [crm|]; simpl|]|].
  - split.
    + intros H. repeat case_match; discriminate H.
    + intros [[_ ?]|[(_ & _ & ?)|(_ & _ & _ & ?)]]; discriminate.
  - split.
    + intros [= <-]. right. right. eauto.
    + intros [[_ ?]|[(_ & _ & ?)|(-> & _)]]; done.
  - split.
    + intros [= <-]. right. left. eauto.
    + intros [[_ ?]|[(-> & _)|(_ & _ & [? ?] & _)]]; done.
  - split.
    + intros [= <-]. by left.
    + intros [(-> & _)|[(_ & [? ?] & _)|(_ & [? ?] & _)]]; done.
Qed.

(** A configuration without crm raises whatever the environment holds. *)
Example main_key_error_sample :
  main Fixtures.config_without_crm "auto" Fixtures.environ_three_keys = KeyError "crm".
Proof. vm_compute. reflexivity. Qed.

Lemma filter_nonempty_join (f : string → bool) (keys : list string) k :
  k ∈ List.filter f keys ↔ k ∈ keys ∧ f k = true.
Proof. rewrite !list_elem_of_In. apply filter_In. Qed.

(** X5: when [main] stops for missing keys, the first line it prints lists,
    separated by commas and in the order OPENAI, APOLLO, GMAIL, AIRTABLE,
    exactly the required keys that are unset: each key named is required
    and unset, and no required unset key is left out. *)
Theorem main_reports_missing_keys config mode environ printed :
  main config mode environ = Aborted printed →
  ∃ keys missing,
    required_keys config = Ok keys
    ∧ missing ≠ []
    ∧ missing `sublist_of` keys
    ∧ (∀ k, k ∈ missing ↔ k ∈ keys ∧ unset environ k = true)
    ∧ printed = ["Missing required API keys: " +:+ Text.join ", " missing;
                 "Please add them to your .env file"].
Proof.
  unfold main. destruct (required_keys config) as [keys|k]; [|done].
  destruct (missing_keys environ keys) as [|m ms] eqn:Hm; [done|].
  intros [= <-]. exists keys, (m :: ms). split; [done|]. split; [done|].
  split; [|split; [|done]]; rewrite <-Hm; unfold missing_keys.
  - clear Hm. induction keys as [|k keys IH]; simpl; [constructor|].
    destruct (unset environ k); [by apply sublist_skip|by apply sublist_cons].
  - intros k. apply filter_nonempty_join.
Qed.

Lemma main_reports_missing_keys_witness :
  ∃ keys missing,
    required_keys Samples.apollo_config = Ok keys
    ∧ missing ≠ []
    ∧ missing `sublist_of` keys
    ∧ (∀ k, k ∈ missing ↔ k ∈ keys ∧ unset Samples.environ_without_apollo k = true)
    ∧ ["Missing required API keys: APOLLO_API_KEY"; "Please add them to your .env file"]
      = ["Missing required API keys: " +:+ Text.join ", " missing;
         "Please add them to your .env file"].
Proof.
  apply (main_reports_missing_keys Samples.apollo_config "auto"
           Samples.environ_without_apollo).
  vm_compute. reflexivity.
Defined.

End entry_point_more.

(** ** The leads route and the run route together *)

Section leads_more.
Import Supabase.

(** X6: [GET] of the leads route changes nothing and, when the query goes
    through, returns exactly the stored leads of the signed-in user,
    narrowed to one run when agent_run_id is given and not empty; without a
    session or on a query error it returns no lead. *)
Theorem leads_get_own_only faults req db :
  (LeadsApi.GET faults req db).2 = db
  ∧ (∀ r, r ∈ LeadsApi.returned_leads (LeadsApi.GET faults req db).1 →
       r ∈ leads db
       ∧ session req = Some (lead_user_id r)
       ∧ select_leads_fails faults = false
       ∧ (∀ id, search req "agent_run_id" = Some id → id ≠ "" →
            lead_agent_run_id r = Some (JStr id)))
  ∧ (∀ r, select_leads_fails faults = false →
       r ∈ leads db →
       session req = Some (lead_user_id r) →
       (∀ id, search req "agent_run_id" = Some id → id ≠ "" →
          lead_agent_run_id r = Some (JStr id)) →
       r ∈ LeadsApi.returned_leads (LeadsApi.GET faults req db).1).
Proof.
  unfold LeadsApi.GET.
  destruct (session req) as [user|]; simpl.
  2:{ split; [done|]. split; [by intros r ?%elem_of_nil|done]. }
  destruct (select_leads_fails faults); simpl.
  { split; [done|]. split; [by intros r ?%elem_of_nil|done]. }
  split; [done|].
  assert (∀ (f : LeadRow → bool) l r, r ∈ List.filter f l ↔ r ∈ l ∧ f r = true) as Hfilter.
  { intros f l r. rewrite !list_elem_of_In. apply filter_In. }
  assert (∀ r id, eq_text (lead_agent_run_id r) id = true
                  ↔ lead_agent_run_id r = Some (JStr id)) as Heq.
  { intros r id. unfold eq_text.
    destruct (lead_agent_run_id r) as [[]|]; try (split; done).
    rewrite bool_decide_eq_true. split; congruence. }
  destruct (search req "agent_run_id") as [id|]; [destruct id as [|c id]|]; simpl.
  - split.
    + intros r [Hin Hu%bool_decide_eq_true]%Hfilter.
      repeat split; try done; [by rewrite Hu|]. by intros ? [= <-].
    + intros r _ Hin [= Hu] _. apply Hfilter. split; [done|].
      by apply bool_decide_eq_true.
  - split.
    + intros r [[Hin Hu%bool_decide_eq_true]%Hfilter Hrun%Heq]%Hfilter.
      repeat split; try done; [by rewrite Hu|]. by intros ? [= <-].
    + intros r _ Hin [= Hu] Hrun. apply Hfilter. split.
      * apply Hfilter. split; [done|]. by apply bool_decide_eq_true.
      * apply Heq. by apply Hrun.
  - split.
    + intros r [Hin Hu%bool_decide_eq_true]%Hfilter.
      repeat split; try done. by rewrite Hu.
    + intros r _ Hin [= Hu] _. apply Hfilter. split; [done|].
      by apply bool_decide_eq_true.
Qed.

(** X7: a lead is stored by [POST] of the leads route only for a run that
    the agent_runs table lists under the signed-in user, and it is stored
    under that user. *)
Theorem leads_post_own_run faults req db row :
  (LeadsApi.POST faults req db).1 = json_ok (LeadCreated row) →
  ∃ run,
    run ∈ agent_runs db
    ∧ session req = Some (run_user_id run)
    ∧ lead_user_id row = run_user_id run
    ∧ lead_agent_run_id row = Some (JStr (run_id run))
    ∧ leads (LeadsApi.POST faults req db).2 = leads db ++ [row].
Proof.
  unfold LeadsApi.POST.
  destruct (session req) as [user|]; [|done].
  destruct (body req ≫= Js.destructure) as [field|]; [|done].
  destruct (_ || _); [done|].
  destruct (single _) as [run|] eqn:Hrun; [|done].
  destruct (insert_lead_fails faults _); [done|]. simpl.
  intros [= <-]. simpl.
  unfold single in Hrun.
  destruct (List.filter _ _) as [|run' [|]] eqn:Hf; simplify_eq.
  assert (run ∈ List.filter
            (λ r, eq_text (field "agent_run_id") (run_id r)
                  && bool_decide (run_user_id r = user)) (agent_runs db)) as Hin.
  { rewrite Hf. apply list_elem_of_here. }
  apply list_elem_of_In, filter_In in Hin as [Hin Hcond].
  apply andb_prop in Hcond as [Hid Hu%bool_decide_eq_true].
  exists run. rewrite <-list_elem_of_In in Hin. repeat split; try done.
  - by rewrite Hu.
  - unfold eq_text in Hid. destruct (field "agent_run_id") as [[]|]; try done.
    apply bool_decide_eq_true in Hid. by rewrite Hid.
Qed.

Lemma leads_post_own_run_witness :
  ∃ run,
    run ∈ agent_runs Samples.db
    ∧ Some "ada" = Some (run_user_id run)
    ∧ "ada" = run_user_id run
    ∧ Some (JStr "run-1") = Some (JStr (run_id run))
    ∧ leads (LeadsApi.POST Samples.no_faults
               (Samples.request (Some "ada") (JObj Samples.full_lead)) Samples.db).2
      = leads Samples.db ++ [Fixtures.grace_row].
Proof.
  exact (leads_post_own_run Samples.no_faults
           (Samples.request (Some "ada") (JObj Samples.full_lead)) Samples.db
           Fixtures.grace_row eq_refl).
Defined.

(** X8: the run route writes the agents table and the leads route looks
    runs up in the agent_runs table, so that starting a run changes nothing
    in what the leads route answers: a lead for the run just created is
    refused as before. *)
Theorem run_created_leads_still_refused faults faults' req req' db :
  agent_runs (AgentRunApi.POST faults' req' db).2 = agent_runs db
  ∧ (LeadsApi.POST faults req (AgentRunApi.POST faults' req' db).2).1
    = (LeadsApi.POST faults req db).1.
Proof.
  assert (agent_runs (AgentRunApi.POST faults' req' db).2 = agent_runs db) as Hruns.
  { unfold AgentRunApi.POST.
    destruct (session req'); [|done].
    destruct (body req' ≫= Js.destructure); [|done].
    by destruct (insert_agent_fails faults' _). }
  split; [done|].
  unfold LeadsApi.POST. rewrite Hruns.
  destruct (session req); [|done].
  destruct (body req ≫= Js.destructure); [|done].
  destruct (_ || _); [done|].
  destruct (single _); [|done].
  by destruct (insert_lead_fails faults _).
Qed.

End leads_more.

(** ** The emails route *)

Section emails.
Import EmailsApi.
Implicit Types (bk : Backend) (t : Tables) (e : EmailRow).

(** Every way [PUT] of the emails route can end. *)
Lemma emails_put_cases bk req t :
  ((PUT bk req t).2 = t ∧ reply_is_ok (PUT bk req t).1 = false)
  ∨ ∃ user field key e,
      session req = Some user
      ∧ body req ≫= Js.destructure = Some field
      ∧ field "id" = Some (JStr key)
      ∧ emails t !! key = Some e
      ∧ email_user_id e = user
      ∧ update_fails bk key
          (update_data (now bk) (field "subject") (field "body") (field "status")) = false
      ∧ PUT bk req t
        = (reply_ok (apply_update
                       (update_data (now bk) (field "subject") (field "body")
                          (field "status")) e),
           {| lead_owner := lead_owner t;
              emails := <[key := apply_update
                                   (update_data (now bk) (field "subject")
                                      (field "body") (field "status")) e]> (emails t) |}).
Proof.
  unfold PUT.
  destruct (session req) as [user|]; [|by left].
  destruct (body req ≫= Js.destructure) as [field|]; [|by left].
  destruct (Js.truthy (field "id")); simpl; [|by left].
  destruct (own_email _ _ _) as [[key e]|] eqn:Hown; [|by left].
  destruct (update_fails bk key _) eqn:Hu; [by left|].
  right. unfold own_email in Hown.
  destruct (field "id") as [[]|] eqn:Hid; try done.
  destruct (emails t !! s) as [e'|] eqn:He; [|done].
  case_bool_decide; simplify_eq.
  exists (email_user_id e), field, key, e. by repeat split.
Qed.

(** Every way [POST] of the emails route can end. *)
Lemma emails_post_cases bk req t :
  ((POST bk req t).2 = t ∧ reply_is_ok (POST bk req t).1 = false)
  ∨ ∃ user field lead e,
      session req = Some user
      ∧ body req ≫= Js.destructure = Some field
      ∧ field "lead_id" = Some (JStr lead)
      ∧ lead_owner t !! lead = Some user
      ∧ emails t !! new_id bk = None
      ∧ email_user_id e = user
      ∧ email_lead_id e = JStr lead
      ∧ Some (email_subject e) = field "subject"
      ∧ Some (email_body e) = field "body"
      ∧ filled e = true
      ∧ ((is_literal (field "action") "send" = true
          ∧ email_status e = JStr "sent" ∧ sent_at e = Some (now bk))
         ∨ (is_literal (field "action") "send" = false
            ∧ email_status e = JStr "draft" ∧ sent_at e = None))
      ∧ opened_at e = None ∧ replied_at e = None
      ∧ POST bk req t
        = (reply_ok e,
           {| lead_owner := lead_owner t; emails := <[new_id bk := e]> (emails t) |}).
Proof.
  unfold POST.
  destruct (session req) as [user|]; [|by left].
  destruct (body req ≫= Js.destructure) as [field|]; [|by left].
  destruct (Js.truthy (field "lead_id")) eqn:H1; simpl; [|by left].
  destruct (Js.truthy (field "subject")) eqn:H2; simpl; [|by left].
  destruct (Js.truthy (field "body")) eqn:H3; simpl; [|by left].
  destruct (own_lead _ _ _) eqn:Hown; simpl; [|by left].
  destruct (insert_fails bk _); simpl; [by left|].
  case_bool_decide as Hnew; simpl; [by left|].
  right. unfold own_lead in Hown.
  destruct (field "lead_id") as [[]|] eqn:Hl; try done.
  apply bool_decide_eq_true in Hown.
  destruct (field "subject") as [subject|] eqn:Hs; [|done].
  destruct (field "body") as [emailBody|] eqn:Hb; [|done].
  rewrite ?Hs, ?Hb in H2, H3.
  eexists user, field, s, _. rewrite ?Hl, ?Hs, ?Hb.
  repeat split; try done.
  - by apply eq_None_not_Some.
  - unfold filled. cbn -[Js.truthy]. rewrite H2, H3. by destruct (is_literal _ _).
  - destruct (is_literal (field "action") "send"); [left|right]; done.
Qed.

(** X9: a request the emails route does not answer with success changes no
    table: after [PUT] or [POST] either the answer is a success or the
    tables are as before. *)
Theorem emails_rejected_unchanged bk req t :
  (reply_is_ok (PUT bk req t).1 = true ∨ (PUT bk req t).2 = t)
  ∧ (reply_is_ok (POST bk req t).1 = true ∨ (POST bk req t).2 = t).
Proof.
  split.
  - destruct (emails_put_cases bk req t) as [[? _]|(?&?&?&?&_&_&_&_&_&_&->)];
      [by right|by left].
  - destruct (emails_post_cases bk req t)
      as [[? _]|(?&?&?&?&_&_&_&_&_&_&_&_&_&_&_&_&_&->)]; [by right|by left].
Qed.

Lemma emails_put_isolation bk req t :
  (∀ key, email_user_id <$> emails (PUT bk req t).2 !! key
          = email_user_id <$> emails t !! key
          ∧ email_lead_id <$> emails (PUT bk req t).2 !! key
            = email_lead_id <$> emails t !! key)
  ∧ (∀ key e, emails t !! key = Some e →
       session req ≠ Some (email_user_id e) →
       emails (PUT bk req t).2 !! key = Some e)
  ∧ lead_owner (PUT bk req t).2 = lead_owner t.
Proof.
  destruct (emails_put_cases bk req t)
    as [[-> _]|(user & field & k & e0 & Hs & _ & _ & He0 & Hu & _ & ->)]; [done|].
  simpl. split; [|split; [|done]].
  - intros key. destruct (decide (k = key)) as [<-|Hk].
    + by rewrite lookup_insert_eq, He0.
    + by rewrite lookup_insert_ne.
  - intros key e He Hne. destruct (decide (k = key)) as [<-|Hk].
    + rewrite He0 in He; simplify_eq; try (by rewrite Hs in Hne).
    + by rewrite lookup_insert_ne.
Qed.

Lemma emails_post_isolation bk req t :
  (∀ key e, emails t !! key = Some e → emails (POST bk req t).2 !! key = Some e)
  ∧ (∀ key e, emails (POST bk req t).2 !! key = Some e →
       emails t !! key = Some e
       ∨ (session req = Some (email_user_id e)
          ∧ ∃ lead, email_lead_id e = JStr lead
                    ∧ lead_owner t !! lead = Some (email_user_id e)))
  ∧ lead_owner (POST bk req t).2 = lead_owner t.
Proof.
  destruct (emails_post_cases bk req t)
    as [[-> _]|(user & field & lead & e1 & Hs & _ & _ & Hlead & Hnew & Hu & Hl
                & _ & _ & _ & _ & _ & _ & ->)]; [by eauto|].
  simpl. split; [|split; [|done]].
  - intros key e He. destruct (decide (new_id bk = key)) as [<-|Hk].
    + by rewrite Hnew in He.
    + by rewrite lookup_insert_ne.
  - intros key e He. destruct (decide (new_id bk = key)) as [<-|Hk].
    + rewrite lookup_insert_eq in He. injection He as <-. right.
      split; [by rewrite Hu|]. exists lead. by rewrite Hu.
    + rewrite lookup_insert_ne in He by done. by left.
Qed.

(** X10: the emails route keeps users apart.  [PUT] neither adds nor
    removes a row, never changes the owner or the lead of one, and leaves
    every email alone that is not the signed-in user's; [POST] never
    overwrites a row, and a row it adds belongs to the signed-in user and
    to a lead of theirs.  Neither touches the leads. *)
Theorem emails_route_isolation bk req t :
  (∀ key, email_user_id <$> emails (PUT bk req t).2 !! key
          = email_user_id <$> emails t !! key
          ∧ email_lead_id <$> emails (PUT bk req t).2 !! key
            = email_lead_id <$> emails t !! key)
  ∧ (∀ key e, emails t !! key = Some e →
       session req ≠ Some (email_user_id e) →
       emails (PUT bk req t).2 !! key = Some e)
  ∧ (∀ key e, emails t !! key = Some e → emails (POST bk req t).2 !! key = Some e)
  ∧ (∀ key e, emails (POST bk req t).2 !! key = Some e →
       emails t !! key = Some e
       ∨ (session req = Some (email_user_id e)
          ∧ ∃ lead, email_lead_id e = JStr lead
                    ∧ lead_owner t !! lead = Some (email_user_id e)))
  ∧ lead_owner (PUT bk req t).2 = lead_owner t
  ∧ lead_owner (POST bk req t).2 = lead_owner t.
Proof.
  destruct (emails_put_isolation bk req t) as (H1 & H2 & H3).
  destruct (emails_post_isolation bk req t) as (H4 & H5 & H6).
  done.
Qed.

Lemma apply_update_stamped now subject emailBody status e :
  stamped e → stamped (apply_update (update_data now subject emailBody status) e).
Proof.
  intros (Hsent & Hopened & Hreplied).
  unfold stamped, apply_update, update_data, when_truthy. simpl.
  destruct (Js.truthy status) eqn:Ht.
  - destruct status as [v|]; [|done]. simpl.
    repeat split; intros ->; simpl; eauto.
  - assert (∀ s, is_literal status s = true → s = "") as Hlit.
    { intros s Hl. unfold is_literal in Hl.
      destruct status as [[]|]; try done.
      apply bool_decide_eq_true in Hl as ->. by destruct s. }
    simpl.
    destruct (is_literal status "sent") eqn:H1; [by apply Hlit in H1|].
    destruct (is_literal status "opened") eqn:H2; [by apply Hlit in H2|].
    destruct (is_literal status "replied") eqn:H3; [by apply Hlit in H3|].
    done.
Qed.

Lemma apply_update_filled now subject emailBody status e :
  filled e = true →
  filled (apply_update (update_data now subject emailBody status) e) = true.
Proof.
  unfold filled, apply_update, update_data, when_truthy. cbn -[Js.truthy].
  intros [[H1 H2]%andb_prop H3]%andb_prop.
  destruct (Js.truthy subject) eqn:Hs, (Js.truthy emailBody) eqn:Hb,
           (Js.truthy status) eqn:Ht;
    destruct subject, emailBody, status; cbn -[Js.truthy] in *; try done;
    by rewrite ?H1, ?H2, ?H3, ?Hs, ?Hb, ?Ht.
Qed.

(** X11: the emails route keeps the timestamps in step with the statuses:
    if in every stored email a sent status comes with [sent_at], an opened
    one with [opened_at] and a replied one with [replied_at], the same
    holds after any [PUT] and any [POST]. *)
Theorem emails_route_keeps_stamps bk req t :
  map_Forall (λ _ e, stamped e) (emails t) →
  map_Forall (λ _ e, stamped e) (emails (PUT bk req t).2)
  ∧ map_Forall (λ _ e, stamped e) (emails (POST bk req t).2).
Proof.
  intros Hall. split.
  - destruct (emails_put_cases bk req t)
      as [[-> _]|(user & field & k & e0 & _ & _ & _ & He0 & _ & _ & ->)]; [done|].
    simpl. apply map_Forall_insert_2; [|done].
    apply apply_update_stamped. by eapply Hall.
  - destruct (emails_post_cases bk req t)
      as [[-> _]|(user & field & lead & e1 & _ & _ & _ & _ & _ & _ & _ & _ & _ & _
                  & Hst & Ho & Hr & ->)]; [done|].
    simpl. apply map_Forall_insert_2; [|done].
    destruct Hst as [(_ & Hs & Hat)|(_ & Hs & _)];
      unfold stamped; rewrite Hs; repeat split; try done;
      intros _; by rewrite Hat.
Qed.

(** X12: the emails route never blanks an email: if every stored email has
    a value (for a string, a non-empty one) as subject, body and status,
    so it is after any [PUT] and any [POST]; and a [PUT] that goes through
    while carrying an empty (or no) subject, body or status leaves the
    stored one. *)
Theorem emails_route_keeps_filled bk req req' t :
  map_Forall (λ _ e, filled e = true) (emails t) →
  map_Forall (λ _ e, filled e = true) (emails (PUT bk req t).2)
  ∧ map_Forall (λ _ e, filled e = true) (emails (POST bk req' t).2)
  ∧ (∀ field e',
       body req ≫= Js.destructure = Some field →
       (PUT bk req t).1 = reply_ok e' →
       ∃ key e,
         field "id" = Some (JStr key)
         ∧ emails t !! key = Some e
         ∧ emails (PUT bk req t).2 !! key = Some e'
         ∧ (Js.truthy (field "subject") = false → email_subject e' = email_subject e)
         ∧ (Js.truthy (field "body") = false → email_body e' = email_body e)
         ∧ (Js.truthy (field "status") = false → email_status e' = email_status e)).
Proof.
  intros Hall. split; [|split].
  - destruct (emails_put_cases bk req t)
      as [[-> _]|(user & field & k & e0 & _ & _ & _ & He0 & _ & _ & ->)]; [done|].
    simpl. apply map_Forall_insert_2; [|done].
    apply apply_update_filled. by eapply Hall.
  - destruct (emails_post_cases bk req' t)
      as [[-> _]|(user & field & lead & e1 & _ & _ & _ & _ & _ & _ & _ & _ & _ & Hf
                  & _ & _ & _ & ->)]; [done|].
    simpl. by apply map_Forall_insert_2.
  - intros field e' Hfield Hok.
    destruct (emails_put_cases bk req t)
      as [[_ Hno]|(user & field0 & key & e & _ & Hfield0 & Hid & He & _ & _ & Hput)].
    { rewrite Hok in Hno. done. }
    rewrite Hfield in Hfield0. injection Hfield0 as <-.
    rewrite Hput in Hok |- *. simpl in Hok. injection Hok as <-.
    exists key, e. split; [done|]. split; [done|].
    split; [simpl; apply lookup_insert_eq|].
    unfold apply_update, update_data, when_truthy. cbn -[Js.truthy].
    repeat split; by intros ->.
Qed.

Lemma emails_route_keeps_stamps_witness :
  map_Forall (λ _ e, stamped e)
    (emails (PUT Fixtures.backend Fixtures.send_request Fixtures.tables).2)
  ∧ map_Forall (λ _ e, stamped e)
      (emails (POST Fixtures.backend Fixtures.send_request Fixtures.tables).2).
Proof.
  apply (emails_route_keeps_stamps Fixtures.backend Fixtures.send_request
           Fixtures.tables).
  apply map_Forall_singleton. by repeat split.
Defined.

(** An edit with an empty subject changes the body and keeps the subject;
    a new draft is stored beside the first email. *)
Lemma emails_route_keeps_filled_witness :
  map_Forall (λ _ e, filled e = true)
    (emails (PUT Fixtures.backend Fixtures.blank_subject_edit Fixtures.tables).2)
  ∧ map_Forall (λ _ e, filled e = true)
      (emails (POST Fixtures.backend Fixtures.new_draft Fixtures.tables).2)
  ∧ (∃ e', emails (PUT Fixtures.backend Fixtures.blank_subject_edit Fixtures.tables).2
             !! "email-1" = Some e'
           ∧ email_subject e' = JStr "Hello"
           ∧ email_body e' = JStr "A word about engines, revised.")
  ∧ (∃ e', emails (POST Fixtures.backend Fixtures.new_draft Fixtures.tables).2
             !! "email-2" = Some e'
           ∧ email_subject e' = JStr "Following up"
           ∧ email_status e' = JStr "draft").
Proof.
  destruct (emails_route_keeps_filled Fixtures.backend Fixtures.blank_subject_edit
              Fixtures.new_draft Fixtures.tables) as (Hput & Hpost & Hkeep).
  { apply map_Forall_singleton. reflexivity. }
  split; [exact Hput|]. split; [exact Hpost|]. split.
  - destruct (Hkeep _ _ eq_refl eq_refl) as (key & e & Hid & He & He' & Hs & _ & _).
    injection Hid as <-. eexists. split; [exact He'|].
    split; [|reflexivity].
    rewrite (Hs eq_refl). vm_compute in He. by injection He as <-.
  - eexists. split; [vm_compute; reflexivity|]. split; reflexivity.
Defined.

(** X13: pressing Approve or Send in the emails table, on an email of the
    signed-in user whose id is not empty and with the update going through, reaches [PUT] of the
    emails route and changes the status alone: Approve gives an approved
    email with its timestamps as they were, for which Send is still offered
    and Approve no longer; Send gives a sent email stamped with the time of
    the request, for which neither is offered. *)
Theorem table_action_updates_status bk req t key e action :
  key ≠ "" →
  emails t !! key = Some e →
  session req = Some (email_user_id e) →
  body req = Some (fetch_body (handleAction key action)) →
  action = "approve" ∨ action = "send" →
  (∀ u, update_fails bk key u = false) →
  fetch_method (handleAction key action) = "PUT"
  ∧ fetch_endpoint (handleAction key action) = "/api/emails"
  ∧ ∃ e',
      PUT bk req t
      = (reply_ok e',
         {| lead_owner := lead_owner t; emails := <[key := e']> (emails t) |})
      ∧ email_subject e' = email_subject e
      ∧ email_body e' = email_body e
      ∧ opened_at e' = opened_at e
      ∧ replied_at e' = replied_at e
      ∧ (action = "approve" →
         email_status e' = JStr "approved" ∧ sent_at e' = sent_at e
         ∧ offers_approve (email_status e') = false
         ∧ offers_send (email_status e') = true)
      ∧ (action = "send" →
         email_status e' = JStr "sent" ∧ sent_at e' = Some (now bk)
         ∧ offers_approve (email_status e') = false
         ∧ offers_send (email_status e') = false).
Proof.
  intros Hkey He Hs Hb Hact Hup.
  unfold PUT. rewrite Hs, Hb.
  assert (Text.is_empty key = false) as Hne by (by destruct key).
  destruct Hact as [-> | ->]; simpl;
    (split; [done|]; split; [done|]);
    rewrite Hne, He; simpl; rewrite bool_decide_eq_true_2 by done; rewrite Hup;
    eexists; (split; [reflexivity|]); by repeat split.
Qed.

Lemma table_action_updates_status_witness :
  ∃ e',
    PUT Fixtures.backend Fixtures.send_request Fixtures.tables
    = (reply_ok e',
       {| lead_owner := lead_owner Fixtures.tables;
          emails := <["email-1" := e']> (emails Fixtures.tables) |})
    ∧ email_status e' = JStr "sent"
    ∧ sent_at e' = Some "2025-06-01T09:00:00.000Z".
Proof.
  destruct (table_action_updates_status Fixtures.backend Fixtures.send_request
              Fixtures.tables "email-1" Fixtures.draft "send")
    as (_ & _ & e' & Hput & _ & _ & _ & _ & _ & Hsend).
  - done.
  - reflexivity.
  - reflexivity.
  - reflexivity.
  - by right.
  - reflexivity.
  - exists e'. destruct (Hsend eq_refl) as (Hst & Hat & _). by repeat split.
Defined.

End emails.

(** ** The chat route and the chat interface *)

Section chat.
Import ChatApi.
Implicit Types (faults : ChatFaults) (db : ChatDb).

(** Every way [POST] of the chat route can end. *)
Lemma chat_post_cases faults req db :
  runs (POST faults req db).2 = runs db
  ∧ ((chat_messages (POST faults req db).2 = chat_messages db
      ∧ reply_is_ok (POST faults req db).1 = false)
     ∨ ∃ user field content,
         session req = Some user
         ∧ body req ≫= Js.destructure = Some field
         ∧ field "content" = Some content
         ∧ Js.truthy (Some content) = true
         ∧ let u := {| chat_user_id := user;
                       chat_agent_run_id := field "agent_run_id";
                       chat_role := "user"; chat_content := content |} in
           let a := {| chat_user_id := user;
                       chat_agent_run_id := field "agent_run_id";
                       chat_role := "assistant";
                       chat_content := JStr canned_reply |} in
           reply_is_ok (POST faults req db).1 = true
           ∧ ((reply_body (POST faults req db).1
               = Ok {| user_message := u; ai_message := None |}
               ∧ chat_messages (POST faults req db).2 = chat_messages db ++ [u])
              ∨ (reply_body (POST faults req db).1
                 = Ok {| user_message := u; ai_message := Some a |}
                 ∧ chat_messages (POST faults req db).2
                   = chat_messages db ++ [u; a]))).
Proof.
  unfold POST.
  destruct (session req) as [user|]; [|split; [done|by left]].
  destruct (body req ≫= Js.destructure) as [field|]; [|split; [done|by left]].
  destruct (Js.truthy (field "content")) eqn:Hc; simpl; [|split; [done|by left]].
  destruct (field "content") as [content|] eqn:Hf; [|done]. simpl.
  destruct (insert_message_fails faults _) eqn:H1; [split; [done|by left]|].
  destruct (insert_message_fails faults
              {| chat_user_id := user; chat_agent_run_id := field "agent_run_id";
                 chat_role := "assistant"; chat_content := JStr canned_reply |}) eqn:H2;
    (split; [done|]); right; exists user, field, content;
    (repeat split; try done); [by left|by right].
Qed.

(** X14: [POST] of the chat route stores nothing, the user's message, or the
    user's message directly followed by the canned assistant reply, at the
    end of the table; both rows carry the signed-in user and the run of the
    request, and the answer is a success exactly when the user's message
    was stored.  An assistant reply is never stored on its own. *)
Theorem chat_post_stores_in_pairs faults req db :
  runs (POST faults req db).2 = runs db
  ∧ ((chat_messages (POST faults req db).2 = chat_messages db
      ∧ reply_is_ok (POST faults req db).1 = false)
     ∨ ∃ user field content,
         session req = Some user
         ∧ body req ≫= Js.destructure = Some field
         ∧ field "content" = Some content
         ∧ Js.truthy (Some content) = true
         ∧ let u := {| chat_user_id := user;
                       chat_agent_run_id := field "agent_run_id";
                       chat_role := "user"; chat_content := content |} in
           let a := {| chat_user_id := user;
                       chat_agent_run_id := field "agent_run_id";
                       chat_role := "assistant";
                       chat_content := JStr canned_reply |} in
           reply_is_ok (POST faults req db).1 = true
           ∧ ((reply_body (POST faults req db).1
               = Ok {| user_message := u; ai_message := None |}
               ∧ chat_messages (POST faults req db).2 = chat_messages db ++ [u])
              ∨ (reply_body (POST faults req db).1
                 = Ok {| user_message := u; ai_message := Some a |}
                 ∧ chat_messages (POST faults req db).2
                   = chat_messages db ++ [u; a]))).
Proof.
  unfold POST.
  destruct (session req) as [user|]; [|split; [done|by left]].
  destruct (body req ≫= Js.destructure) as [field|]; [|split; [done|by left]].
  destruct (Js.truthy (field "content")) eqn:Hc; simpl; [|split; [done|by left]].
  destruct (field "content") as [content|] eqn:Hf; [|done]. simpl.
  destruct (insert_message_fails faults _) eqn:H1; [split; [done|by left]|].
  destruct (insert_message_fails faults
              {| chat_user_id := user; chat_agent_run_id := field "agent_run_id";
                 chat_role := "assistant"; chat_content := JStr canned_reply |}) eqn:H2;
    (split; [done|]); right; exists user, field, content;
    (repeat split; try done); [by left|by right].
Qed.

Lemma message_json_fields content agentRun :
  ∃ field,
    Some (message_json content agentRun) ≫= Js.destructure = Some field
    ∧ field "content" = Some (JStr content)
    ∧ field "agent_run_id" = JStr <$> agentRun.
Proof. eexists. split; [reflexivity|]. by destruct agentRun. Qed.

Lemma chat_post_content_present faults cookie search content agentRun db :
  Text.is_empty content = false →
  reply_status
    (POST faults {| session := cookie; search := search;
                    body := Some (message_json content agentRun) |} db).1 ≠ 400%nat.
Proof.
  intros Hne. unfold POST. cbn [session body]. destruct cookie as [user|]; [|done].
  destruct (message_json_fields content agentRun) as (field & Hb & Hc & _).
  rewrite Hb, Hc. simpl. rewrite Hne. simpl.
  by repeat destruct (insert_message_fails _ _).
Qed.

(** X15: the chat interface sends nothing when the input is blank after
    trimming or while a message is under way.
    Otherwise it sends the trimmed text, which the chat route never refuses
    as missing content; afterwards the input is empty and loading is over,
    and the interface shows exactly the rows the route stored: its list and
    the table grow by the same rows, none when the route answered with an
    error. *)
Theorem chat_interface_send faults cookie agentRun st db :
  (Text.is_empty (Text.js_trim (input st)) || isLoading st = true →
   handleSendMessage faults cookie agentRun st db = (st, db))
  ∧ (Text.is_empty (Text.js_trim (input st)) || isLoading st = false →
     let sent := {| session := cookie; search := λ _, None;
                    body := Some (message_json (Text.js_trim (input st)) agentRun) |} in
     let out := handleSendMessage faults cookie agentRun st db in
     reply_status (POST faults sent db).1 ≠ 400%nat
     ∧ out.2 = (POST faults sent db).2
     ∧ input out.1 = ""
     ∧ isLoading out.1 = false
     ∧ ∃ new,
         chat_messages out.2 = chat_messages db ++ new
         ∧ messages out.1 = messages st ++ new
         ∧ (new = [] ↔ reply_is_ok (POST faults sent db).1 = false)
         ∧ (∀ m, head new = Some m →
              chat_role m = "user"
              ∧ chat_content m = JStr (Text.js_trim (input st))
              ∧ Some (chat_user_id m) = cookie)).
Proof.
  unfold handleSendMessage. split.
  - by intros ->.
  - intros Hgo. rewrite Hgo. cbv zeta.
    apply orb_false_elim in Hgo as [Hne _].
    set (sent := {| session := cookie; search := λ _, None;
                    body := Some (message_json (Text.js_trim (input st)) agentRun) |}).
    split; [by apply chat_post_content_present|].
    destruct (message_json_fields (Text.js_trim (input st)) agentRun)
      as (field0 & Hb0 & Hc0 & _).
    pose proof (chat_post_cases faults sent db) as [_ Hcases].
    destruct (POST faults sent db) as [response db'] eqn:Hpost.
    cbn [fst snd] in *.
    destruct Hcases
      as [[Hdb Hok]|(user & field & content & Hs & Hb & Hf & Ht & Hrok & Hst)].
    + rewrite Hok. cbn [fst snd input isLoading messages].
      repeat split; try done.
      exists []. rewrite !app_nil_r. by repeat split.
    + cbn zeta in Hrok, Hst. cbn [body sent] in Hb. rewrite Hb0 in Hb.
      injection Hb as <-. rewrite Hc0 in Hf. injection Hf as <-.
      rewrite Hrok.
      destruct Hst as [[Hrb Hdb]|[Hrb Hdb]]; rewrite Hrb;
        cbn [fst snd input isLoading messages user_message ai_message];
        (repeat split; try done);
        eexists; (split; [exact Hdb|]); (split; [done|]);
        (split; [split; [done|intros; congruence]|]);
        intros m [= <-]; cbn; by rewrite <-Hs.
Qed.

(** Ada types a request with blanks around it, a no-break space among
    them; the trimmed text and the assistant's reply are stored and
    shown. *)
Lemma chat_interface_send_witness :
  input (handleSendMessage Fixtures.chat_faults (Some "ada") (Some "run-1")
           {| messages := []; input := Text.bytes [194; 160]%nat +:+ " Find CTOs "; isLoading := false |}
           Fixtures.chat_db).1 = ""
  ∧ messages (handleSendMessage Fixtures.chat_faults (Some "ada") (Some "run-1")
                {| messages := []; input := Text.bytes [194; 160]%nat +:+ " Find CTOs "; isLoading := false |}
                Fixtures.chat_db).1
    = [Fixtures.chat_row "ada" "run-1" "user" "Find CTOs";
       Fixtures.chat_row "ada" "run-1" "assistant" canned_reply].
Proof.
  destruct (chat_interface_send Fixtures.chat_faults (Some "ada") (Some "run-1")
              {| messages := []; input := Text.bytes [194; 160]%nat +:+ " Find CTOs "; isLoading := false |}
              Fixtures.chat_db) as [_ Hsend].
  destruct (Hsend eq_refl) as (_ & _ & Hinput & _ & _).
  split; [exact Hinput|]. vm_compute. reflexivity.
Defined.

(** X16: [GET] of the chat route changes nothing and returns stored
    messages of the signed-in user only, in the order they are stored;
    when agent_run_id is given and not empty, messages of that run only. *)
Theorem chat_get_own_only faults req db :
  (GET faults req db).2 = db
  ∧ ∀ found, reply_body (GET faults req db).1 = Ok found →
      found `sublist_of` chat_messages db
      ∧ Forall (λ m, session req = Some (chat_user_id m)) found
      ∧ ∀ id, search req "agent_run_id" = Some id → id ≠ "" →
          Forall (λ m, chat_agent_run_id m = Some (JStr id)) found.
Proof.
  unfold GET.
  destruct (session req) as [user|]; [|by split].
  destruct (select_messages_fails faults); [by split|].
  simpl. split; [done|]. intros found [= <-].
  assert (∀ (f : ChatRow → bool) l, List.filter f l `sublist_of` l) as Hsub.
  { intros f l. induction l as [|x l IH]; simpl; [done|].
    destruct (f x); [by apply sublist_skip|by apply sublist_cons]. }
  assert (∀ (f : ChatRow → bool) l, Forall (λ m, f m = true) (List.filter f l)) as Hall.
  { intros f l. apply Forall_forall. intros m Hm.
    by apply list_elem_of_In, filter_In in Hm as [_ ?]. }
  assert (∀ id l, Forall (λ m, chat_agent_run_id m = Some (JStr id))
                    (List.filter (λ m, Supabase.eq_text (chat_agent_run_id m) id) l))
    as Hrun.
  { intros id l. eapply Forall_impl; [apply Hall|].
    intros m Hm. simpl in Hm. unfold Supabase.eq_text in Hm.
    destruct (chat_agent_run_id m) as [[]|]; try done.
    by apply bool_decide_eq_true in Hm as ->. }
  assert (∀ l, Forall (λ m, Some user = Some (chat_user_id m))
                 (List.filter (λ m, bool_decide (chat_user_id m = user)) l)) as Huser.
  { intros l. eapply Forall_impl; [apply Hall|].
    intros m Hm. simpl in Hm. by apply bool_decide_eq_true in Hm as ->. }
  assert (∀ (f : ChatRow → bool) (Q : ChatRow → Prop) l,
            Forall Q l → Forall Q (List.filter f l)) as Hkeep.
  { intros f Q l HQ. apply Forall_forall. intros m Hm.
    apply list_elem_of_In, filter_In in Hm as [Hm _].
    eapply Forall_forall in HQ; [exact HQ|]. by apply list_elem_of_In. }
  assert (∀ id' : string, Some id' = None → id' ≠ "" →
            ∀ l : list ChatRow, Forall (λ m, chat_agent_run_id m = Some (JStr id')) l)
    as Hnone by done.
  unfold truthy_param.
  destruct (search req "agent_run_id") as [id|] eqn:Hid;
    [destruct (Text.is_empty id) eqn:He|].
  - assert (∀ id' : string, Some id = Some id' → id' ≠ "" →
              ∀ l : list ChatRow, Forall (λ m, chat_agent_run_id m = Some (JStr id')) l)
      as Hempty.
    { intros id' [= <-] Hne. by destruct id. }
    destruct (last _) as [run|].
    + split; [etrans; apply Hsub|]. split; [apply Hkeep, Huser|].
      intros id' H1 H2. by apply Hempty.
    + split; [apply Hsub|]. split; [apply Huser|].
      intros id' H1 H2. by apply Hempty.
  - split; [etrans; apply Hsub|]. split; [apply Hkeep, Huser|].
    intros id' [= <-] _. apply Hrun.
  - destruct (last _) as [run|].
    + split; [etrans; apply Hsub|]. split; [apply Hkeep, Huser|].
      intros id' H1 H2. by apply Hnone.
    + split; [apply Hsub|]. split; [apply Huser|].
      intros id' H1 H2. by apply Hnone.
Qed.

Lemma chat_get_own_only_witness :
  [Fixtures.chat_row "ada" "run-1" "user" "Find founders";
   Fixtures.chat_row "ada" "run-1" "assistant" canned_reply]
    `sublist_of` chat_messages Fixtures.chat_db
  ∧ Forall (λ m, session Fixtures.ada_reads = Some (chat_user_id m))
      [Fixtures.chat_row "ada" "run-1" "user" "Find founders";
       Fixtures.chat_row "ada" "run-1" "assistant" canned_reply]
  ∧ ∀ id, search Fixtures.ada_reads "agent_run_id" = Some id → id ≠ "" →
      Forall (λ m, chat_agent_run_id m = Some (JStr id))
        [Fixtures.chat_row "ada" "run-1" "user" "Find founders";
         Fixtures.chat_row "ada" "run-1" "assistant" canned_reply].
Proof.
  apply (proj2 (chat_get_own_only Fixtures.chat_faults Fixtures.ada_reads
                  Fixtures.chat_db)).
  reflexivity.
Defined.

(** A message typed with spaces around it is stored trimmed, with the
    canned reply after it, and shown. *)
Example chat_interface_sample :
  let st := {| messages := []; input := "  Find founders  "; isLoading := false |} in
  let out := handleSendMessage Fixtures.chat_faults (Some "ada") (Some "run-1") st
               {| runs := []; chat_messages := [] |} in
  messages out.1
  = [Fixtures.chat_row "ada" "run-1" "user" "Find founders";
     Fixtures.chat_row "ada" "run-1" "assistant" canned_reply]
  ∧ chat_messages out.2 = messages out.1
  ∧ input out.1 = "".
Proof. by repeat split. Qed.

(** X17: a chat message is shown whole when it has at most 500 UTF-16 code
    units or is expanded; otherwise its first 500 code units are shown,
    followed by three dots, 503 code units in all, so that a collapsed
    message never shows more than 503. *)
Theorem display_content_bounds (content : list N) isExpanded :
  ((length content ≤ 500)%nat → displayContent content isExpanded = content)
  ∧ displayContent content true = content
  ∧ ((500 < length content)%nat →
     displayContent content false = take 500 content ++ [46; 46; 46]%N
     ∧ length (displayContent content false) = 503%nat
     ∧ take 500 content `prefix_of` content)
  ∧ (length (displayContent content false) ≤ 503)%nat.
Proof.
  unfold displayContent, isLongMessage.
  split; [|split; [|split]].
  - intros Hshort. by rewrite (proj2 (Nat.ltb_ge _ _)) by done.
  - by rewrite andb_false_r.
  - intros Hlong. rewrite (proj2 (Nat.ltb_lt _ _)) by done.
    cbn [andb negb]. split; [done|]. split.
    + rewrite length_app, length_take. cbn [length]. lia.
    + exists (drop 500 content). by rewrite take_drop.
  - destruct (Nat.ltb 500 (length content)) eqn:Hl; cbn [andb negb].
    + rewrite length_app, length_take. cbn [length]. lia.
    + apply Nat.ltb_ge in Hl. lia.
Qed.

(** A message of 501 code units is cut to 500 and the dots. *)
Example display_content_cut :
  length (displayContent (replicate 501 97%N) false) = 503%nat
  ∧ displayContent (replicate 501 97%N) true = replicate 501 97%N
  ∧ displayContent (replicate 500 97%N) false = replicate 500 97%N.
Proof. vm_compute. by repeat split. Qed.

End chat.

(** ** The run-agent modal *)

Section run_agent_modal.
Import Supabase RunAgentModal.

(** X18: submitting the run-agent modal ends loading and does one of two
    things.  When the run route answers with an error, the modal stays
    open, shows the route's error message, and no run was stored.  When a
    run was stored, the modal closes and the browser is sent to
    "/?agent_run_id=undefined": the answer carries the new run under
    agent_id, the modal reads agent_run_id, so the address never names the
    run just created. *)
Theorem modal_submit_outcomes to_string faults cookie formData db :
  let out := handleSubmit to_string faults cookie formData db in
  isLoading out.1 = false
  ∧ ((closed out.1 = false
      ∧ pushed out.1 = None
      ∧ agents out.2 = agents db
      ∧ (error out.1 = Some "Unauthorized"
         ∨ error out.1 = Some "Failed to create agent run"))
     ∨ (closed out.1 = true
        ∧ error out.1 = None
        ∧ pushed out.1 = Some "/?agent_run_id=undefined"
        ∧ ∃ run, agents out.2 = agents db ++ [run]
                 ∧ cookie = Some (agent_user_id run)
                 ∧ agent_status run = "active"
                 ∧ in_lead_count (agent_inputs run)
                   = Some (match lead_count formData with
                           | Some n => JInt n
                           | None => JNull
                           end))).
Proof.
  unfold handleSubmit, AgentRunApi.POST. cbn [session body].
  destruct cookie as [user|].
  - cbn [mbind option_bind form_json Js.destructure].
    destruct (insert_agent_fails faults _).
    + split; [done|]. left. repeat split; try done. by right.
    + split; [done|]. right. repeat split; try done. eexists. by repeat split.
  - split; [done|]. left. repeat split; try done. by left.
Qed.

(** A run is stored and the browser is sent to the undefined run. *)
Example modal_submit_sample :
  pushed (handleSubmit (λ _, "") Samples.no_faults (Some "ada") initial_form Samples.db).1
  = Some "/?agent_run_id=undefined"
  ∧ length (agents (handleSubmit (λ _, "") Samples.no_faults (Some "ada")
                      initial_form Samples.db).2) = 1%nat.
Proof. by split. Qed.

(** X20: when the run route stores a run it reports success whether or not
    the row of the initial task could be stored: the answer does not depend
    on that insert, and the tasks table gains at most the one task, of type
    initialize and status done, that names the new run.  When no run is
    stored, no task is. *)
Theorem run_route_initial_task faults req db :
  let out := AgentRunApi.POST faults req db in
  (agents out.2 = agents db ∧ tasks out.2 = tasks db)
  ∨ ∃ run task,
      agents out.2 = agents db ++ [run]
      ∧ out.1 = json_ok (AgentStarted (agent_id run) "active")
      ∧ session req = Some (agent_user_id run)
      ∧ task_agent_id task = agent_id run
      ∧ task_type task = "initialize"
      ∧ task_status task = "done"
      ∧ tasks out.2 = (if insert_task_fails faults task then tasks db
                       else tasks db ++ [task]).
Proof.
  unfold AgentRunApi.POST.
  destruct (session req) as [user|]; [|by left].
  destruct (body req ≫= Js.destructure) as [field|]; [|by left].
  destruct (insert_agent_fails faults _); [by left|].
  right. eexists _, _. by repeat split.
Qed.

End run_agent_modal.

(** ** The filters of the emails page *)

Section email_filters.
Import EmailFilters.

Lemma truthy_nonempty v s : truthy v = Some s → s ≠ "".
Proof.
  unfold truthy. destruct v as [[|c v]|]; simpl; intros ?; simplify_eq. done.
Qed.

(** X19: changing one filter of the emails page keeps the other.  After a
    change of the status filter the address carries the new status, or no
    status when "All" (the empty value) was chosen, and the run filter that
    was in force; and the other way round for a change of the run filter.
    The address never carries a parameter twice or with an empty value. *)
Theorem filters_change_one_keep_other pathname currentStatus currentAgentRunId v :
  (let u := handleStatusChange pathname currentStatus currentAgentRunId v in
   url_path u = pathname
   ∧ page_param "status" (url_query u) = truthy (Some v)
   ∧ page_param "agent_run_id" (url_query u) = truthy currentAgentRunId
   ∧ Forall (λ kv, kv.2 ≠ "") (url_query u)
   ∧ NoDup (url_query u).*1)
  ∧ (let u := handleAgentRunChange pathname currentStatus currentAgentRunId v in
     url_path u = pathname
     ∧ page_param "agent_run_id" (url_query u) = truthy (Some v)
     ∧ page_param "status" (url_query u) = truthy currentStatus
     ∧ Forall (λ kv, kv.2 ≠ "") (url_query u)
     ∧ NoDup (url_query u).*1).
Proof.
  unfold handleStatusChange, handleAgentRunChange, updateFilters.
  destruct (truthy currentStatus) as [s|] eqn:Hs;
    destruct (truthy currentAgentRunId) as [r|] eqn:Hr;
    destruct v as [|c v];
    try (pose proof (truthy_nonempty _ _ Hs));
    try (pose proof (truthy_nonempty _ _ Hr));
    vm_compute;
    repeat split; try done;
    repeat (first [apply Forall_nil_2 | apply Forall_cons_2 | apply NoDup_nil_2
                  | apply NoDup_cons_2]); try done;
    rewrite ?elem_of_cons, ?elem_of_nil; try (intros [?|[]]; discriminate);
    try tauto.
Qed.

End email_filters.

(** ** The sign-up route *)

Section signup.
Import SignupApi.

(** X21: the sign-up route asks the authentication service at most once, and
    not at all when email or password is missing (it then answers 400 and
    changes nothing).  It stores at most one profile, only under the id of
    the user the service returned and with the email of the request, never
    over an existing profile, and answers with success exactly then.  When
    the service returned a user but the profile could not be stored, the
    answer is 500 and the sign-up stands without a profile. *)
Theorem signup_profile_follows_account sv req st :
  let out := POST sv req st in
  (∀ id p, profiles st !! id = Some p → profiles out.2 !! id = Some p)
  ∧ ((out.2 = st ∧ reply_is_ok out.1 = false)
     ∨ ∃ field,
         body req ≫= Js.destructure = Some field
         ∧ Js.truthy (field "email") = true
         ∧ Js.truthy (field "password") = true
         ∧ sign_ups out.2 = sign_ups st ++ [(field "email", field "password")]
         ∧ match signUp sv (field "email") (field "password") (field "full_name") with
           | AuthUser id =>
               (out.1 = reply_ok id
                ∧ profiles st !! id = None
                ∧ profiles out.2
                  = <[id := {| profile_email := field "email";
                               profile_full_name := field "full_name";
                               profile_company := field "company";
                               profile_role := field "role" |}]> (profiles st))
               ∨ (reply_status out.1 = 500%nat ∧ profiles out.2 = profiles st)
           | AuthError message =>
               out.1 = reply_error message 400 ∧ profiles out.2 = profiles st
           | NoUser =>
               reply_status out.1 = 500%nat ∧ profiles out.2 = profiles st
           end).
Proof.
  unfold POST.
  destruct (body req ≫= Js.destructure) as [field|]; [|split; [done|by left]].
  destruct (Js.truthy (field "email")) eqn:He; simpl; [|split; [done|by left]].
  destruct (Js.truthy (field "password")) eqn:Hp; simpl; [|split; [done|by left]].
  destruct (signUp sv _ _ _) as [message|id|] eqn:Hsign.
  - split; [done|]. right. exists field. rewrite Hsign. by repeat split.
  - destruct (insert_profile_fails sv id _); simpl.
    + split; [done|]. right. exists field. rewrite Hsign. repeat split; try done.
      by right.
    + case_bool_decide as Hold; simpl.
      * split; [done|]. right. exists field. rewrite Hsign. repeat split; try done.
        by right.
      * apply eq_None_not_Some in Hold. split.
        -- intros id' p Hp'. destruct (decide (id = id')) as [<-|Hne].
           ++ by rewrite Hold in Hp'.
           ++ by rewrite lookup_insert_ne.
        -- right. exists field. rewrite Hsign. repeat split; try done. by left.
  - split; [done|]. right. exists field. rewrite Hsign. by repeat split.
Qed.

End signup.
